(** * BDO-REST-API helper scripts: [prewarm_guilds.py] and [proxy_filter.py]

    A shallow embedding of the two command-line scripts of the repository
    and the properties of their polling engine, fetcher, deduplication,
    query validator, warming loops and proxy filter.

    Conventions of the embedding.
    - A Python [int] is a [Z]; a Python [float] is a primitive IEEE-754
      binary64 [float]; a Python [str] is a [string] holding its UTF-8
      encoding; [bytes] are a [list Byte.byte].
    - A value produced by [json.loads] is a [pyval]; Python's [None] is
      [PNone] (this is both the "no body" marker of the fetcher and the
      value of the JSON text [null]).
    - Functions of Python's standard library that the scripts call but do
      not define ([json.loads], [urllib.parse.urlencode], [str.strip],
      [str.lower], [str.splitlines], [bytes.decode]) are fields of the
      class [PyStdlib]; every definition and theorem is parametric in it.
    - The outside world (network, clock, terminal, files) is a [world]:
      an oracle answering the n-th request, and the chronological trace of
      the effects performed so far. *)

From Stdlib Require Import ZArith String Ascii List Bool Lia.
From Stdlib Require Import Floats.PrimFloat Floats.SpecFloat Floats.FloatOps Floats.FloatAxioms.
From stdpp Require Import base list strings pretty.

Set Warnings "-register-all,-inexact-float".
Local Open Scope string_scope.
Local Open Scope Z_scope.

(** ** Python values *)

Inductive pyval : Type :=
| PNone
| PBool (b : bool)
| PInt (z : Z)
| PFloat (f : float)
| PStr (s : string)
| PList (items : list pyval)
| PDict (entries : list (string * pyval)).

(** Python truth value testing ([bool(v)], [if v], [not v], [v or d]). *)
Definition py_truthy (v : pyval) : bool :=
  match v with
  | PNone => false
  | PBool b => b
  | PInt z => negb (z =? 0)
  | PFloat f => negb (PrimFloat.eqb f 0%float)
  | PStr s => negb (String.eqb s "")
  | PList items => match items with [] => false | _ :: _ => true end
  | PDict entries => match entries with [] => false | _ :: _ => true end
  end.

(** [v or d] *)
Definition py_or (v d : pyval) : pyval := if py_truthy v then v else d.

(** [d.get(key)] on the entries of a dict (keys are unique in a dict; the
    default of [get] is [None]). *)
Fixpoint dict_get (key : string) (entries : list (string * pyval)) : pyval :=
  match entries with
  | [] => PNone
  | (k, v) :: rest => if String.eqb k key then v else dict_get key rest
  end.

(** The two-argument builtin [max(a, b)]: [b] only when [b > a]. *)
Definition py_max (a b : float) : float :=
  if PrimFloat.ltb a b then b else a.

(** Exceptions that escape from the scripts' own code. *)
Inductive pyexc : Type :=
| AttributeError
| TypeError
| NetworkError.

Inductive result (A : Type) : Type :=
| Ok (a : A)
| Raise (e : pyexc).
Arguments Ok {A} a.
Arguments Raise {A} e.

(** ** The part of Python's standard library the scripts rely on *)

Class PyStdlib : Type := {
  (** [json.loads]; [None] when it raises. *)
  json_loads : string -> option pyval;
  (** [urllib.parse.urlencode] of a dict of strings, in insertion order. *)
  urlencode : list (string * string) -> string;
  (** [str.strip()] *)
  str_strip : string -> string;
  (** [str.lower()] *)
  str_lower : string -> string;
  (** [str.splitlines()] *)
  str_splitlines : string -> list string;
  (** [bytes.decode("utf-8")]; [None] when it raises. *)
  decode_utf8 : list Byte.byte -> option string;
  (** [bytes.decode("utf-8", errors="ignore")] *)
  decode_utf8_ignore : list Byte.byte -> string
}.

(** ** String helpers written out *)

(** [s.rstrip('/')] *)
Fixpoint rstrip_slash (s : string) : string :=
  match s with
  | EmptyString => EmptyString
  | String c rest =>
      match rstrip_slash rest with
      | EmptyString => if Ascii.eqb c "/"%char then EmptyString else String c EmptyString
      | rest' => String c rest'
      end
  end.

(** [sep.join(parts)] *)
Fixpoint str_join (sep : string) (parts : list string) : string :=
  match parts with
  | [] => ""
  | [p] => p
  | p :: rest => p +:+ sep +:+ str_join sep rest
  end.

(** [prefix] is a prefix of [s]. *)
Fixpoint starts_with (prefix s : string) : bool :=
  match prefix, s with
  | EmptyString, _ => true
  | String _ _, EmptyString => false
  | String a p', String b s' => Ascii.eqb a b && starts_with p' s'
  end.

(** [needle in s] *)
Fixpoint str_contains (needle s : string) : bool :=
  starts_with needle s ||
  match s with
  | EmptyString => false
  | String _ s' => str_contains needle s'
  end.

(** [len(s)]: the number of code points of the text, that is the number
    of bytes of its UTF-8 encoding that are not continuation bytes
    (10xxxxxx). *)
Definition is_continuation (c : ascii) : bool :=
  let n := N_of_ascii c in (128 <=? n)%N && (n <? 192)%N.

Fixpoint py_len (s : string) : Z :=
  match s with
  | EmptyString => 0
  | String c rest => (if is_continuation c then 0 else 1) + py_len rest
  end.

(** ** The outside world *)

(** What [urlopen] / [opener.open] does on one request. [read] is what
    reading the whole payload gives, [None] when reading raises. Responses
    with a status outside 2xx reach the caller as the exception
    [urllib.error.HTTPError], which carries the code and the payload. *)
Inductive urlopen_result : Type :=
| Returned (status : Z) (read : option (list Byte.byte))
| RaisedHTTPError (code : Z) (read : option (list Byte.byte))
| RaisedOther.

Inductive event : Type :=
| EvOpen (proxy : option string) (url : string) (timeout : Z)
| EvSleep (seconds : float)
| EvPrint (line : string)
| EvWrite (path : string) (content : string).

Record world : Type := mkWorld {
  (** the answer to the n-th request (counted from 0) for a URL *)
  network : nat -> string -> urlopen_result;
  (** number of requests issued so far *)
  sent : nat;
  (** effects performed so far, oldest first *)
  trace : list event
}.

Definition io (A : Type) : Type := world -> A * world.

Definition ret {A} (a : A) : io A := fun w => (a, w).

Definition bind {A B} (m : io A) (k : A -> io B) : io B :=
  fun w => let (a, w') := m w in k a w'.

Notation "'let*' x ':=' m 'in' k" := (bind m (fun x => k))
  (at level 10, x pattern, m at level 100, k at level 200).
Notation "m ';;' k" := (bind m (fun _ => k))
  (at level 100, k at level 200, right associativity).

Definition emit (e : event) : io unit :=
  fun w => (tt, mkWorld (network w) (sent w) (trace w ++ [e])).

(** [print(line)] *)
Definition print (line : string) : io unit := emit (EvPrint line).

(** [time.sleep(seconds)] *)
Definition sleep (seconds : float) : io unit := emit (EvSleep seconds).

(** [with open(path, "w", encoding="utf-8") as fh: fh.write(content)];
    the write is taken to succeed. *)
Definition write_file (path content : string) : io unit :=
  emit (EvWrite path content).

(** One request: the oracle answers it, the counter advances. *)
Definition open_url (proxy : option string) (url : string) (timeout : Z)
  : io urlopen_result :=
  fun w => (network w (sent w) url,
            mkWorld (network w) (S (sent w))
                    (trace w ++ [EvOpen proxy url timeout])).

(** The sleeps and the requests of a trace, in order. *)
Definition sleeps (t : list event) : list float :=
  omap (fun e => match e with EvSleep d => Some d | _ => None end) t.

Definition requests (t : list event) : list string :=
  omap (fun e => match e with EvOpen _ u _ => Some u | _ => None end) t.

Definition probes (t : list event) : list string :=
  omap (fun e => match e with EvOpen (Some p) _ _ => Some p | _ => None end) t.

(** ** A small regular-expression matcher, for [re.fullmatch] *)

Inductive regex : Type :=
| RSet (ranges : list (ascii * ascii))   (* [a-bc-d...]; a single character is a one-point range *)
| RRepeat (r : regex) (lo hi : nat)       (* r{lo,hi}, greedy *)
| RSeq (r1 r2 : regex).

Definition in_range (c : ascii) (rg : ascii * ascii) : bool :=
  ((N_of_ascii (fst rg) <=? N_of_ascii c) && (N_of_ascii c <=? N_of_ascii (snd rg)))%N.

Definition in_set (ranges : list (ascii * ascii)) (c : ascii) : bool :=
  existsb (in_range c) ranges.

(** [repeat_from step lo hi s]: the remainders of [s] after between [lo]
    and [hi] successive matches of [step], longest first. *)
Fixpoint repeat_from (step : string -> list string) (lo hi : nat) (s : string)
  : list string :=
  match hi with
  | O => match lo with O => [s] | S _ => [] end
  | S hi' =>
      flat_map (repeat_from step (Nat.pred lo) hi') (step s)
      ++ match lo with O => [s] | S _ => [] end
  end.

(** [match_prefix r s]: what is left of [s] after each way [r] matches a
    prefix of it, in the order the backtracking matcher tries them. *)
Fixpoint match_prefix (r : regex) (s : string) : list string :=
  match r with
  | RSet ranges =>
      match s with
      | String c rest => if in_set ranges c then [rest] else []
      | EmptyString => []
      end
  | RRepeat r' lo hi => repeat_from (match_prefix r') lo hi s
  | RSeq r1 r2 => flat_map (match_prefix r2) (match_prefix r1 s)
  end.

(** [bool(re.fullmatch(r, s))] *)
Definition fullmatch (r : regex) (s : string) : bool :=
  existsb (fun rest => String.eqb rest "") (match_prefix r s).

(** ** Insertion-ordered dictionaries, for [dict.fromkeys] *)

Section Dict.
Context {K V : Type} `{EqDecision K}.

(** [key in d] *)
Fixpoint dict_has (d : list (K * V)) (key : K) : bool :=
  match d with
  | [] => false
  | (k, _) :: rest => if decide (k = key) then true else dict_has rest key
  end.

(** [d[key] = v]: an existing key keeps its position, a new key goes
    last. *)
Fixpoint dict_set (d : list (K * V)) (key : K) (v : V) : list (K * V) :=
  match d with
  | [] => [(key, v)]
  | (k, v0) :: rest =>
      if decide (k = key) then (k, v) :: rest
      else (k, v0) :: dict_set rest key v
  end.

(** [dict.fromkeys(keys)] with the default value. *)
Definition dict_fromkeys (dflt : V) (keys : list K) : list (K * V) :=
  fold_left (fun d k => dict_set d k dflt) keys [].

(** [list(d)]: the keys in insertion order. *)
Definition dict_keys (d : list (K * V)) : list K := map fst d.
End Dict.

(** [list(dict.fromkeys(xs))] *)
Definition dedup (xs : list string) : list string :=
  dict_keys (dict_fromkeys PNone xs).

(** ** [scripts/prewarm_guilds.py] *)

Module Prewarm.
(** The [(status, data, raw)] triple of [http_get_json]. *)
Abbreviation fetch_outcome := (Z * pyval * string)%type.

Section Script.
Context `{PyStdlib}.

Definition GUILDS : list string :=
  ["Mythic"; "RAW"; "Control"; "Insecure"; "Ace"; "Demise"; "Fall"; "Yeah";
   "Orca"; "Armbrows"; "Combat"; "Cold"; "Ruin"; "Act"; "Dominate"; "BLNK";
   "RAT"; "Deported"; "Necrotic"; "Bliss"; "Ecchi_Squad"; "Carrots";
   "BugCat"; "Skill_Issue"; "ManshaSlayers"].

(** The body of [http_get_json] once [urlopen] has answered: the three
    [except] clauses decide what comes back. *)
Definition handle_response (r : urlopen_result) : fetch_outcome :=
  match r with
  | Returned status read =>
      match read ≫= decode_utf8 with
      | Some body =>
          if String.eqb body "" then (status, PNone, "")
          else match json_loads body with
               | Some data => (status, data, "")
               | None => (0, PNone, "")            (* except Exception *)
               end
      | None => (0, PNone, "")                     (* except Exception *)
      end
  | RaisedHTTPError code read =>
      match read ≫= decode_utf8 with
      | Some body =>
          if String.eqb body "" then (code, PNone, body)
          else match json_loads body with
               | Some data => (code, data, body)
               | None => (code, PNone, "")         (* inner except *)
               end
      | None => (code, PNone, "")                  (* inner except *)
      end
  | RaisedOther => (0, PNone, "")
  end.

(** Building the [Request] is taken to succeed (the URL has a scheme). *)
Definition http_get_json (url : string) : io fetch_outcome :=
  let* r := open_url None url 30 in
  ret (handle_response r).

Definition attempt_of (attempt max_attempts : Z) : string :=
  pretty attempt +:+ "/" +:+ pretty max_attempts.

(** The [for attempt in range(1, max_attempts + 1)] loop of
    [wait_for_200], with [remaining] iterations to go, followed by the
    code after the loop. *)
Fixpoint poll_loop (url label : string) (max_attempts : Z) (delay : float)
    (remaining : nat) (attempt last_status : Z) : io pyval :=
  match remaining with
  | O =>
      let hint := if last_status =? 0 then " (connection failed?)" else "" in
      print ("[" +:+ label +:+ "] failed after " +:+ pretty max_attempts
             +:+ " attempts" +:+ hint) ;;
      ret PNone
  | S remaining' =>
      let* (status, data, raw) := http_get_json url in
      if status =? 200 then ret data
      else if status =? 202 then
        print ("[" +:+ label +:+ "] 202 (in progress) attempt "
               +:+ attempt_of attempt max_attempts) ;;
        sleep delay ;;
        poll_loop url label max_attempts delay remaining' (attempt + 1) status
      else if status =? 429 then
        print ("[" +:+ label +:+ "] 429 (rate limited) attempt "
               +:+ attempt_of attempt max_attempts) ;;
        sleep (py_max 5%float (delay * 2)%float) ;;
        poll_loop url label max_attempts delay remaining' (attempt + 1) status
      else if (status =? 500) || (status =? 503) || (status =? 0) then
        let code := if negb (status =? 0) then pretty status else "no connection" in
        print ("[" +:+ label +:+ "] " +:+ code +:+ " (server/backoff) attempt "
               +:+ attempt_of attempt max_attempts) ;;
        sleep (py_max 10%float (delay * 5)%float) ;;
        poll_loop url label max_attempts delay remaining' (attempt + 1) status
      else
        let msg := str_strip raw in
        let extra := if negb (String.eqb msg "") then " body=" +:+ msg else "" in
        print ("[" +:+ label +:+ "] unexpected status " +:+ pretty status
               +:+ extra +:+ "; retrying (" +:+ attempt_of attempt max_attempts
               +:+ ")") ;;
        sleep delay ;;
        poll_loop url label max_attempts delay remaining' (attempt + 1) status
  end.

Definition wait_for_200 (url label : string) (max_attempts : Z) (delay : float)
  : io pyval :=
  poll_loop url label max_attempts delay (Z.to_nat max_attempts) 1 0.

Definition build_url (base_url path : string) (params : list (string * string))
  : string :=
  rstrip_slash base_url +:+ path +:+ "?" +:+ urlencode params.

(** The loop of [collect_profile_targets] / [collect_family_names] over
    the members, for one field. A member that is not a dict has no
    [.get]. *)
Fixpoint collect_members (field : string) (members : list pyval)
    (acc : list pyval) : result (list pyval) :=
  match members with
  | [] => Ok acc
  | PDict entries :: rest =>
      let v := dict_get field entries in
      collect_members field rest (if py_truthy v then acc ++ [v] else acc)
  | _ :: _ => Raise AttributeError
  end.

(** [guild_json.get("members") or []] and the loop over it. Iterating
    a dict yields its keys and iterating a str its characters, neither
    of which has [.get]; a number or a bool is not iterable; a value
    that is not a dict has no [.get] in the first place. *)
Definition collect_field (field : string) (guild_json : pyval)
  : result (list pyval) :=
  match guild_json with
  | PDict entries =>
      match py_or (dict_get "members" entries) (PList []) with
      | PList members => collect_members field members []
      | PDict [] => Ok []
      | PDict (_ :: _) => Raise AttributeError
      | PStr s => if String.eqb s "" then Ok [] else Raise AttributeError
      | PNone | PBool _ | PInt _ | PFloat _ => Raise TypeError
      end
  | _ => Raise AttributeError
  end.

Definition collect_profile_targets : pyval -> result (list pyval) :=
  collect_field "profileTarget".

Definition collect_family_names : pyval -> result (list pyval) :=
  collect_field "familyName".

(** The pattern [[A-Za-z0-9_]{3,16}]. *)
Definition search_query_pattern : regex :=
  RRepeat (RSet [("A", "Z"); ("a", "z"); ("0", "9"); ("_", "_")]%char) 3 16.

(** The pattern has ASCII characters only, and every byte of the UTF-8
    encoding of any other character is above 127: matching the bytes
    accepts the same strings as matching the characters. *)
Definition is_valid_search_query (query : string) : bool :=
  fullmatch search_query_pattern query.

(** The parsed command line. *)
Record args : Type := mkArgs {
  base_url : string;
  region : string;
  delay : float;
  max_attempts : Z;
  throttle : float;
  warm_search : bool
}.

Definition default_args : args :=
  mkArgs "http://localhost:8001" "EU" 2%float 20 0.2%float false.

(** One iteration of [for guild in GUILDS] (lines 127-147); the
    accumulators are [all_profile_targets] and [all_family_names]. *)
Definition guild_step (a : args) (guild : string)
    (acc : list pyval * list pyval) : io (result (list pyval * list pyval)) :=
  let guild_url :=
    build_url (base_url a) "/v1/guild"
              [("guildName", guild); ("region", region a)] in
  print ("Fetching guild: " +:+ guild) ;;
  let* guild_json :=
    wait_for_200 guild_url ("guild:" +:+ guild) (max_attempts a) (delay a) in
  if negb (py_truthy guild_json) then ret (Ok acc)          (* continue *)
  else
    match collect_profile_targets guild_json with
    | Raise e => ret (Raise e)
    | Ok profile_targets =>
        match collect_family_names guild_json with
        | Raise e => ret (Raise e)
        | Ok family_names =>
            print ("  members: " +:+ pretty (Z.of_nat (length profile_targets))) ;;
            sleep (throttle a) ;;
            ret (Ok ((fst acc ++ profile_targets)%list, (snd acc ++ family_names)%list))
        end
    end.

Fixpoint guild_loop (a : args) (guilds : list string)
    (acc : list pyval * list pyval) : io (result (list pyval * list pyval)) :=
  match guilds with
  | [] => ret (Ok acc)
  | guild :: rest =>
      let* r := guild_step a guild acc in
      match r with
      | Ok acc' => guild_loop a rest acc'
      | Raise e => ret (Raise e)
      end
  end.

Definition progress (kind : string) (idx total : Z) : string :=
  kind +:+ ":" +:+ pretty idx +:+ "/" +:+ pretty total.

Definition adventurer_url (a : args) (profile_target : string) : string :=
  build_url (base_url a) "/v1/adventurer"
            [("profileTarget", profile_target); ("region", region a)].

Definition search_url (a : args) (family_name : string) : string :=
  build_url (base_url a) "/v1/adventurer/search"
            [("query", family_name); ("searchType", "familyName");
             ("region", region a)].

(** [if result is None: failed.append(x)] *)
Definition note_failure (result : pyval) (x : string) (failed : list string)
  : list string :=
  match result with
  | PNone => failed ++ [x]
  | _ => failed
  end.

(** [for idx, profile_target in enumerate(unique_profile_targets, 1)]
    (lines 154-165); [total] is [len(unique_profile_targets)]. *)
Fixpoint profile_loop (a : args) (total idx : Z) (targets : list string)
    (failed_profile_targets : list string) : io (list string) :=
  match targets with
  | [] => ret failed_profile_targets
  | profile_target :: rest =>
      let label := progress "adventurer" idx total in
      print ("Fetching " +:+ label) ;;
      let* result :=
        wait_for_200 (adventurer_url a profile_target) label
                     (max_attempts a) (delay a) in
      let failed' := note_failure result profile_target failed_profile_targets in
      sleep (throttle a) ;;
      profile_loop a total (idx + 1) rest failed'
  end.

(** [for idx, family_name in enumerate(unique_family_names, 1)]
    (lines 178-191). *)
Fixpoint search_loop (a : args) (total idx : Z) (names : list string)
    (failed_searches : list string) : io (list string) :=
  match names with
  | [] => ret failed_searches
  | family_name :: rest =>
      if negb (is_valid_search_query family_name) then
        search_loop a total (idx + 1) rest failed_searches       (* continue *)
      else
        let label := progress "search" idx total in
        print ("Fetching " +:+ label) ;;
        let* result :=
          wait_for_200 (search_url a family_name) label
                       (max_attempts a) (delay a) in
        let failed' := note_failure result family_name failed_searches in
        sleep (throttle a) ;;
        search_loop a total (idx + 1) rest failed'
  end.

(** The lines [x + "\n"] written for each entry of a failure list. *)
Definition lines_of (xs : list string) : string :=
  String.concat "" (map (fun x => x +:+ String "010"%char "") xs).

(** Lines 149-171: deduplicate, warm every profile, persist the failures. *)
Definition warm_profiles (a : args) (all_profile_targets : list string)
  : io (list string) :=
  let unique_profile_targets := dedup all_profile_targets in
  let total := Z.of_nat (length unique_profile_targets) in
  print ("Total unique profiles: " +:+ pretty total) ;;
  let* failed_profile_targets :=
    profile_loop a total 1 unique_profile_targets [] in
  match failed_profile_targets with
  | [] => ret failed_profile_targets
  | _ :: _ =>
      write_file "failed_profiles.txt" (lines_of failed_profile_targets) ;;
      print ("Failed profiles: "
             +:+ pretty (Z.of_nat (length failed_profile_targets))
             +:+ " (saved to failed_profiles.txt)") ;;
      ret failed_profile_targets
  end.

(** Lines 174-197: the body of [if args.warm_search]. *)
Definition warm_searches (a : args) (all_family_names : list string)
  : io (list string) :=
  let unique_family_names := dedup all_family_names in
  let total := Z.of_nat (length unique_family_names) in
  print ("Total unique family names: " +:+ pretty total) ;;
  let* failed_searches := search_loop a total 1 unique_family_names [] in
  match failed_searches with
  | [] => ret failed_searches
  | _ :: _ =>
      write_file "failed_searches.txt" (lines_of failed_searches) ;;
      print ("Failed searches: "
             +:+ pretty (Z.of_nat (length failed_searches))
             +:+ " (saved to failed_searches.txt)") ;;
      ret failed_searches
  end.

(** The identifiers the guild API delivers are strings. *)
Fixpoint as_strs (vs : list pyval) : option (list string) :=
  match vs with
  | [] => Some []
  | PStr s :: rest => cons s <$> as_strs rest
  | _ :: _ => None
  end.

(** How a run of the script ends. [Unmodelled]: some member field held
    a JSON value that is truthy and not a string; what the script does
    with such identifiers is not part of this development. *)
Inductive ending : Type :=
| Finished (failed_profile_targets failed_searches : list string)
| Crashed (e : pyexc)
| Unmodelled.

Definition main (a : args) : io ending :=
  let* collected := guild_loop a GUILDS ([], []) in
  match collected with
  | Raise e => ret (Crashed e)
  | Ok (all_profile_targets, all_family_names) =>
      match as_strs all_profile_targets with
      | None => ret Unmodelled
      | Some profile_targets =>
          let* failed_profile_targets := warm_profiles a profile_targets in
          if warm_search a then
            match as_strs all_family_names with
            | None => ret Unmodelled
            | Some family_names =>
                let* failed_searches := warm_searches a family_names in
                ret (Finished failed_profile_targets failed_searches)
            end
          else ret (Finished failed_profile_targets [])
      end
  end.
End Script.
End Prewarm.

(** ** [scripts/proxy_filter.py] *)

Module ProxyFilter.
Section Script.
Context `{PyStdlib}.

(** [fetch_proxy_list]: nothing is caught here, so whatever [urlopen]
    or [read] raises reaches [main]. *)
Definition fetch_proxy_list (url : string) : io (result (list string)) :=
  let* r := open_url None url 30 in
  match r with
  | Returned _ (Some payload) =>
      let raw := decode_utf8_ignore payload in
      let lines :=
        map str_strip
            (filter (fun line => str_strip line <> "") (str_splitlines raw)) in
      ret (Ok lines)
  | Returned _ None | RaisedHTTPError _ _ | RaisedOther =>
      ret (Raise NetworkError)
  end.

Definition blocked_markers : list string := ["imperva"; "incapsula"; "<iframe"].

(** The body of the [try] of [test_proxy] once [opener.open] has
    answered; every exception ends in [return False]. *)
Definition verdict (r : urlopen_result) : bool :=
  match r with
  | Returned status (Some payload) =>
      let body := decode_utf8_ignore (take (Z.to_nat 20000) payload) in
      if negb (status =? 200) then false
      else
        let lowered := str_lower body in
        if str_contains "imperva" lowered || str_contains "incapsula" lowered
           || str_contains "<iframe" lowered
        then false
        else 500 <? py_len body
  | Returned _ None => false
  | RaisedHTTPError _ _ => false
  | RaisedOther => false
  end.

Definition test_proxy (proxy test_url : string) (timeout : Z) : io bool :=
  let* r := open_url (Some proxy) test_url timeout in
  ret (verdict r).

Record args : Type := mkArgs {
  source_url : string;
  test_url : string;
  limit : Z;
  timeout : Z;
  sleep_s : float;       (* --sleep *)
  out : string
}.

Definition default_args : args :=
  mkArgs
    "https://raw.githubusercontent.com/fyvri/fresh-proxy-list/archive/storage/classic/https.txt"
    "https://www.naeu.playblackdesert.com/en-US/Adventure/Guild"
    50 8 0.2%float "working_proxies.txt".

(** [for proxy in proxies] (lines 57-65). *)
Fixpoint probe_loop (a : args) (proxies : list string) (tested : Z)
    (working : list string) : io (list string) :=
  match proxies with
  | [] => ret working
  | proxy :: rest =>
      if limit a <=? tested then ret working                  (* break *)
      else
        let* ok := test_proxy proxy (test_url a) (timeout a) in
        print (proxy +:+ " -> " +:+ (if ok then "OK" else "FAIL")) ;;
        let working' := if ok then (working ++ [proxy])%list else working in
        sleep (sleep_s a) ;;
        probe_loop a rest (tested + 1) working'
  end.

(** How the process ends: [sys.exit(code)], falling off the end of
    [main] (exit status 0), or an uncaught exception. *)
Inductive ending : Type :=
| Exit (code : Z)
| Uncaught (e : pyexc).

Definition main (a : args) : io ending :=
  let* fetched := fetch_proxy_list (source_url a) in
  match fetched with
  | Raise e => ret (Uncaught e)
  | Ok [] =>
      print "No proxies found." ;;
      ret (Exit 1)
  | Ok proxies =>
      let* working := probe_loop a proxies 0 [] in
      match working with
      | _ :: _ =>
          write_file (out a)
                     (str_join (String "010"%char "") working
                      +:+ String "010"%char "") ;;
          print ("Saved " +:+ pretty (Z.of_nat (length working))
                 +:+ " working proxies to " +:+ out a) ;;
          print ("Use them like: -proxy " +:+ String "034"%char ""
                 +:+ str_join " " working +:+ String "034"%char "") ;;
          ret (Exit 0)
      | [] =>
          print "No working proxies found." ;;
          ret (Exit 2)
      end
  end.
End Script.
End ProxyFilter.

(** ** A concrete runtime for the worked examples

    [ascii_stdlib] implements the library functions on byte strings. The
    two codecs and [urlencode] follow CPython; [strip],
    [lower] and [splitlines] know the ASCII white space, letters and line
    boundaries only, and [json_loads] reads the JSON texts built from
    objects, arrays, strings without escapes, integers and the three
    literals (anything else counts as unparsable). The examples below stay
    within these limits. *)

Module Runtime.
Definition between (lo hi n : N) : bool := ((lo <=? n) && (n <=? hi))%N.

(** Length of the well-formed UTF-8 sequence at the head of [bs], [0]
    when there is none (RFC 3629, table of well-formed sequences). *)
Definition utf8_head (bs : list N) : nat :=
  match bs with
  | [] => 0%nat
  | b0 :: t =>
      if (b0 <? 128)%N then 1%nat
      else if between 194 223 b0 then
        match t with
        | b1 :: _ => if between 128 191 b1 then 2%nat else 0%nat
        | _ => 0%nat
        end
      else if between 224 239 b0 then
        match t with
        | b1 :: b2 :: _ =>
            if between (if (b0 =? 224)%N then 160 else 128)
                       (if (b0 =? 237)%N then 159 else 191) b1
               && between 128 191 b2
            then 3%nat else 0%nat
        | _ => 0%nat
        end
      else if between 240 244 b0 then
        match t with
        | b1 :: b2 :: b3 :: _ =>
            if between (if (b0 =? 240)%N then 144 else 128)
                       (if (b0 =? 244)%N then 143 else 191) b1
               && between 128 191 b2 && between 128 191 b3
            then 4%nat else 0%nat
        | _ => 0%nat
        end
      else 0%nat
  end.

(** Walk over the bytes; an ill-formed byte is fatal ([strict]) or
    dropped. *)
Fixpoint decode_walk (strict : bool) (fuel : nat) (bs : list Byte.byte)
  : option (list Byte.byte) :=
  match fuel, bs with
  | _, [] => Some []
  | O, _ :: _ => None
  | S fuel', b :: rest =>
      match utf8_head (map Byte.to_N bs) with
      | O => if strict then None else decode_walk strict fuel' rest
      | n => app (take n bs) <$> decode_walk strict fuel' (drop n bs)
      end
  end.

Definition decode (strict : bool) (bs : list Byte.byte) : option string :=
  string_of_list_byte <$> decode_walk strict (length bs) bs.

Definition lower_char (c : ascii) : ascii :=
  let n := N_of_ascii c in
  if between 65 90 n then ascii_of_N (n + 32) else c.

Fixpoint lower (s : string) : string :=
  match s with
  | EmptyString => EmptyString
  | String c rest => String (lower_char c) (lower rest)
  end.

Definition is_space (c : ascii) : bool :=
  let n := N_of_ascii c in between 9 13 n || between 28 32 n.

Fixpoint lstrip (s : string) : string :=
  match s with
  | String c rest => if is_space c then lstrip rest else s
  | EmptyString => EmptyString
  end.

Definition strip (s : string) : string :=
  String.rev (lstrip (String.rev (lstrip s))).

Definition is_linebreak (c : ascii) : bool :=
  let n := N_of_ascii c in between 10 13 n || between 28 30 n.

Fixpoint splitlines_from (cur s : string) : list string :=
  match s with
  | EmptyString => if String.eqb cur "" then [] else [cur]
  | String c rest =>
      if Ascii.eqb c "013"%char then
        match rest with
        | String "010"%char rest' => cur :: splitlines_from "" rest'
        | _ => cur :: splitlines_from "" rest
        end
      else if is_linebreak c then cur :: splitlines_from "" rest
      else splitlines_from (cur +:+ String c "") rest
  end.

Definition hex_digit (n : N) : ascii :=
  match String.get (N.to_nat n) "0123456789ABCDEF" with
  | Some c => c
  | None => "0"%char
  end.

(** [urllib.parse.quote_plus] *)
Fixpoint quote_plus (s : string) : string :=
  match s with
  | EmptyString => EmptyString
  | String c rest =>
      let n := N_of_ascii c in
      if between 48 57 n || between 65 90 n || between 97 122 n
         || in_set [("_", "_"); ("-", "."); ("~", "~")]%char c
      then String c (quote_plus rest)
      else if Ascii.eqb c " "%char then String "+"%char (quote_plus rest)
      else String "%"%char
             (String (hex_digit (n / 16)) (String (hex_digit (n mod 16))
                                                  (quote_plus rest)))
  end.

Definition urlencode (params : list (string * string)) : string :=
  str_join "&" (map (fun kv => quote_plus (fst kv) +:+ "=" +:+ quote_plus (snd kv))
                    params).

(** *** JSON subset reader *)

Definition is_json_space (c : ascii) : bool :=
  in_set [(" ", " "); ("009", "010"); ("013", "013")]%char c.

Fixpoint skip_ws (s : string) : string :=
  match s with
  | String c rest => if is_json_space c then skip_ws rest else s
  | EmptyString => EmptyString
  end.

Definition is_digit (c : ascii) : bool := in_range c ("0", "9")%char.

(** The characters of a string up to the closing quote; escapes and
    control characters are not read. *)
Fixpoint read_string (s : string) : option (string * string) :=
  match s with
  | EmptyString => None
  | String c rest =>
      if Ascii.eqb c (ascii_of_N 34) then Some ("", rest)
      else if Ascii.eqb c (ascii_of_N 92) || (N_of_ascii c <? 32)%N then None
      else '(str, rest') ← read_string rest; Some (String c str, rest')
  end.

Fixpoint read_digits (acc : Z) (s : string) : Z * string :=
  match s with
  | String c rest =>
      if is_digit c
      then read_digits (10 * acc + Z.of_N (N_of_ascii c - 48)) rest
      else (acc, s)
  | EmptyString => (acc, s)
  end.

(** An optional minus sign and a decimal numeral without leading zero,
    not followed by a fraction or an exponent. *)
Definition read_int (s : string) : option (pyval * string) :=
  let (neg, s1) :=
    match s with
    | String "-"%char rest => (true, rest)
    | _ => (false, s)
    end in
  match s1 with
  | String c rest =>
      if negb (is_digit c) then None
      else
        let (n, rest') :=
          if Ascii.eqb c "0"%char then (0, rest) else read_digits 0 s1 in
        match rest' with
        | String d _ =>
            if in_set [(".", "."); ("e", "e"); ("E", "E")]%char d then None
            else Some (PInt (if neg then - n else n), rest')
        | EmptyString => Some (PInt (if neg then - n else n), rest')
        end
  | EmptyString => None
  end.

Definition drop_prefix (prefix s : string) : option string :=
  if starts_with prefix s
  then Some (String.substring (String.length prefix)
                              (String.length s - String.length prefix) s)
  else None.

Fixpoint read_value (fuel : nat) (s : string) : option (pyval * string) :=
  match fuel with
  | O => None
  | S fuel' =>
      match skip_ws s with
      | String "n"%char _ => pair PNone <$> drop_prefix "null" (skip_ws s)
      | String "t"%char _ => pair (PBool true) <$> drop_prefix "true" (skip_ws s)
      | String "f"%char _ => pair (PBool false) <$> drop_prefix "false" (skip_ws s)
      | String "["%char rest =>
          match skip_ws rest with
          | String "]"%char rest' => Some (PList [], rest')
          | _ => read_items fuel' rest []
          end
      | String "{"%char rest =>
          match skip_ws rest with
          | String "}"%char rest' => Some (PDict [], rest')
          | _ => read_members fuel' rest []
          end
      | String c rest =>
          if Ascii.eqb c (ascii_of_N 34)
          then '(str, rest') ← read_string rest; Some (PStr str, rest')
          else read_int (skip_ws s)
      | EmptyString => None
      end
  end
with read_items (fuel : nat) (s : string) (acc : list pyval)
  : option (pyval * string) :=
  match fuel with
  | O => None
  | S fuel' =>
      '(v, rest) ← read_value fuel' s;
      match skip_ws rest with
      | String ","%char rest' => read_items fuel' rest' (acc ++ [v])
      | String "]"%char rest' => Some (PList (acc ++ [v]), rest')
      | _ => None
      end
  end
with read_members (fuel : nat) (s : string) (acc : list (string * pyval))
  : option (pyval * string) :=
  match fuel with
  | O => None
  | S fuel' =>
      match skip_ws s with
      | String q rest =>
          if negb (Ascii.eqb q (ascii_of_N 34)) then None
          else
            '(key, rest1) ← read_string rest;
            match skip_ws rest1 with
            | String ":"%char rest2 =>
                '(v, rest3) ← read_value fuel' rest2;
                match skip_ws rest3 with
                | String ","%char rest4 =>
                    read_members fuel' rest4 (dict_set acc key v)
                | String "}"%char rest4 =>
                    Some (PDict (dict_set acc key v), rest4)
                | _ => None
                end
            | _ => None
            end
      | EmptyString => None
      end
  end.

Definition loads (s : string) : option pyval :=
  '(v, rest) ← read_value (2 * String.length s + 2) s;
  if String.eqb (skip_ws rest) "" then Some v else None.
End Runtime.

Definition ascii_stdlib : PyStdlib := {|
  json_loads := Runtime.loads;
  urlencode := Runtime.urlencode;
  str_strip := Runtime.strip;
  str_lower := Runtime.lower;
  str_splitlines := Runtime.splitlines_from "";
  decode_utf8 := Runtime.decode true;
  decode_utf8_ignore := fun bs => default "" (Runtime.decode false bs)
|}.

(** ** Inputs of the worked examples *)

Module Examples.
Definition bytes (s : string) : list Byte.byte := list_byte_of_string s.


(** A cache that answers every request with status 200 and the empty
    JSON object. *)
Definition empty_object_200 : world :=
  mkWorld (fun _ _ => Returned 200 (Some (bytes "{}"))) 0%nat [].

(** A network on which every request fails without a response. *)
Definition unreachable : world := mkWorld (fun _ _ => RaisedOther) 0%nat [].

Definition some_url : string :=
  "http://localhost:8001/v1/adventurer?profileTarget=abc&region=EU".


(** [--limit -1] *)
Definition negative_limit : ProxyFilter.args :=
  ProxyFilter.mkArgs "https://proxies.example/https.txt"
                     "https://www.naeu.playblackdesert.com/en-US/Adventure/Guild"
                     (-1) 8 0.2%float "working_proxies.txt".

(** A page of [n] letters, with [text] in front. *)
Definition page (text : string) (n : nat) : list Byte.byte :=
  bytes text ++ repeat Byte.x61 n.





(** A page that is not JSON, delivered with status 200. *)
Definition html_200 : world :=
  mkWorld (fun _ _ => Returned 200 (Some (bytes "<html>busy</html>"))) 0%nat [].

(** A proxy source that serves two candidates, and a target that no
    proxy reaches. *)
Definition two_dead_proxies : world :=
  mkWorld (fun n _ =>
             match n with
             | O => Returned 200
                      (Some (bytes ("10.0.0.1:8080" +:+ String "010"%char ""
                                    +:+ "10.0.0.2:8080" +:+ String "010"%char "")))
             | S _ => RaisedOther
             end)
          0%nat [].

(** A cache that answers every request with status 200 and a JSON list. *)
Definition list_200 : world :=
  mkWorld (fun _ _ => Returned 200 (Some (bytes "[1]"))) 0%nat [].

(** The entries of a guild with two members, one with a profile target
    only and one with a family name only. *)
Definition two_members : list (string * pyval) :=
  [("members", PList [PDict [("profileTarget", PStr "abc")];
                      PDict [("familyName", PStr "Fam")]])].
End Examples.

(** ** Notions the statements below are phrased with *)

(** The word characters of the query validator: ASCII letters, digits
    and the underscore. *)
Definition is_word_char (c : ascii) : bool :=
  let n := N_of_ascii c in
  ((65 <=? n) && (n <=? 90) || (97 <=? n) && (n <=? 122)
   || (48 <=? n) && (n <=? 57) || (n =? 95))%N.

(** Position of the first occurrence of [x] in [xs]. *)
Fixpoint index_of (x : string) (xs : list string) : option nat :=
  match xs with
  | [] => None
  | y :: rest => if decide (y = x) then Some 0%nat else S <$> index_of x rest
  end.

(** The fetch outcomes of the next [n] requests for [url], as the world
    will answer them. *)
Definition attempts `{PyStdlib} (w : world) (url : string) (n : nat)
  : list Prewarm.fetch_outcome :=
  map (fun i => Prewarm.handle_response (network w (sent w + i)%nat url)) (seq 0 n).

(** The attempts made before the first one with status 200. *)
Fixpoint until_200 (outs : list Prewarm.fetch_outcome)
  : list Prewarm.fetch_outcome :=
  match outs with
  | [] => []
  | o :: rest => if o.1.1 =? 200 then [] else o :: until_200 rest
  end.

(** The table of the polling engine: how long it sleeps after an attempt
    that returned [status] (other than 200). *)
Definition backoff_delay (delay : float) (status : Z) : float :=
  if status =? 202 then delay
  else if status =? 429 then py_max 5%float (delay * 2)%float
  else if (status =? 500) || (status =? 503) || (status =? 0)
       then py_max 10%float (delay * 5)%float
  else delay.

(** The world after one attempt that did not return 200: the request,
    the log line and the sleep. *)
Definition after_attempt (w : world) (url line : string) (d : float) : world :=
  mkWorld (network w) (S (sent w))
          (trace w ++ [EvOpen None url 30; EvPrint line; EvSleep d]).



(** The files written in a trace, in order. *)
Definition writes (t : list event) : list (string * string) :=
  omap (fun e => match e with EvWrite p c => Some (p, c) | _ => None end) t.

(** The lines printed in a trace, in order. *)
Definition prints (t : list event) : list string :=
  omap (fun e => match e with EvPrint l => Some l | _ => None end) t.


(** [n] times the character ['/']. *)
Fixpoint slashes (n : nat) : string :=
  match n with
  | O => ""
  | S n' => String "/"%char (slashes n')
  end.

(** [isinstance(v, dict)] *)
Definition is_dict (v : pyval) : bool :=
  match v with
  | PDict _ => true
  | _ => false
  end.

(** The cache never answers a request with status 200. *)
Definition never_200 `{PyStdlib} (w : world) : Prop :=
  forall (n : nat) (url : string),
    (Prewarm.handle_response (network w n url)).1.1 <> 200.

(** * Properties *)

Local Open Scope list_scope.

(** ** Query validator *)

Section Regex.
Variable ranges : list (ascii * ascii).

Let step : string -> list string := match_prefix (RSet ranges).

Lemma repeat_set_empty_rest (hi : nat) : forall (lo : nat) (s : string),
  In "" (repeat_from step lo hi s) <->
  (lo <= String.length s <= hi)%nat /\
  Forall (fun c => in_set ranges c = true) (list_ascii_of_string s).
Proof.
  induction hi as [|hi IH]; intros lo s.
  - destruct lo as [|lo]; simpl.
    + split.
      * intros [E|[]]. subst s. simpl. split; [lia | constructor].
      * intros [Hlen _]. destruct s; simpl in Hlen; [now left | lia].
    + split; [intros [] | intros [Hlen _]; lia].
  - cbn [repeat_from]. rewrite in_app_iff.
    assert (Hstop : forall t : string,
              In "" (match lo with O => [t] | S _ => [] end) <->
              lo = 0%nat /\ t = "").
    { intros t. destruct lo; simpl; split.
      - intros [E|[]]. now split.
      - intros [_ ->]. now left.
      - intros [].
      - intros [E _]. discriminate. }
    rewrite Hstop. destruct s as [|c rest].
    + simpl. split.
      * intros [[]|[-> _]]. split; [lia | constructor].
      * intros [Hlen _]. right. split; [lia | reflexivity].
    + unfold step at 2. cbn [match_prefix list_ascii_of_string String.length].
      destruct (in_set ranges c) eqn:Hc.
      * cbn [flat_map]. rewrite app_nil_r, IH. split.
        -- intros [[Hlen Hall]|[_ E]]; [|discriminate].
           split; [lia | now constructor].
        -- intros [Hlen Hall]. left. inversion Hall; subst.
           split; [lia | assumption].
      * cbn [flat_map]. split.
        -- intros [[]|[_ E]]. discriminate.
        -- intros [_ Hall]. inversion Hall; subst. congruence.
Qed.

Lemma fullmatch_repeat_set (lo hi : nat) (s : string) :
  fullmatch (RRepeat (RSet ranges) lo hi) s = true <->
  (lo <= String.length s <= hi)%nat /\
  Forall (fun c => in_set ranges c = true) (list_ascii_of_string s).
Proof.
  unfold fullmatch. rewrite existsb_exists. simpl.
  rewrite <- repeat_set_empty_rest. split.
  - intros (rest & Hin & Heq). apply String.eqb_eq in Heq. now subst.
  - intros Hin. exists "". split; [assumption | reflexivity].
Qed.
End Regex.

Lemma word_set_is_word_char (c : ascii) :
  in_set [("A", "Z"); ("a", "z"); ("0", "9"); ("_", "_")]%char c = is_word_char c.
Proof.
  destruct c as [[] [] [] [] [] [] [] []]; reflexivity.
Qed.

(** C7. The query validator accepts exactly the strings of 3 to 16
    characters that consist of ASCII letters, ASCII digits and underscores
    only (the whole string is matched); ["abc"], sixteen ["a"] and
    ["John_123"] are accepted, ["ab"], seventeen ["a"] and ["john doe"]
    are rejected. *)
Theorem is_valid_search_query_spec :
  (forall query : string,
     Prewarm.is_valid_search_query query = true <->
     (3 <= String.length query <= 16)%nat /\
     Forall (fun c => is_word_char c = true) (list_ascii_of_string query))
  /\ Prewarm.is_valid_search_query "abc" = true
  /\ Prewarm.is_valid_search_query "aaaaaaaaaaaaaaaa" = true
  /\ Prewarm.is_valid_search_query "John_123" = true
  /\ Prewarm.is_valid_search_query "ab" = false
  /\ Prewarm.is_valid_search_query "aaaaaaaaaaaaaaaaa" = false
  /\ Prewarm.is_valid_search_query "john doe" = false.
Proof.
  split; [|repeat split; reflexivity].
  intros query. unfold Prewarm.is_valid_search_query, Prewarm.search_query_pattern.
  rewrite fullmatch_repeat_set.
  assert (Hiff : forall l,
    Forall (fun c => in_set [("A", "Z"); ("a", "z"); ("0", "9"); ("_", "_")]%char c = true) l
    <-> Forall (fun c => is_word_char c = true) l).
  { intros l. split; intros HF; (eapply Forall_impl; [exact HF|]); intros c Hc;
      cbv beta in Hc |- *;
      [rewrite <- word_set_is_word_char | rewrite word_set_is_word_char]; exact Hc. }
  now rewrite Hiff.
Qed.

(** ** Deduplication *)

Lemma dict_keys_set {V : Type} (d : list (string * V)) (k : string) (v : V) :
  dict_keys (dict_set d k v) =
  if decide (k ∈ dict_keys d) then dict_keys d else dict_keys d ++ [k].
Proof.
  induction d as [|[k0 v0] d IH].
  - reflexivity.
  - cbn [dict_set]. destruct (decide (k0 = k)) as [->|Hne].
    + cbn [dict_keys map fst].
      destruct (decide (k ∈ k :: map fst d)) as [_|Hnin]; [reflexivity|].
      exfalso. apply Hnin. by left.
    + change (dict_keys ((k0, v0) :: dict_set d k v))
        with (k0 :: dict_keys (dict_set d k v)).
      change (dict_keys ((k0, v0) :: d)) with (k0 :: dict_keys d).
      rewrite IH. clear IH.
      destruct (decide (k ∈ dict_keys d)) as [Hin|Hnin],
               (decide (k ∈ k0 :: dict_keys d)) as [Hin'|Hnin'];
        try reflexivity; exfalso.
      * apply Hnin'. by right.
      * apply elem_of_cons in Hin' as [->|?]; [by apply Hne | by apply Hnin].
Qed.

Lemma dedup_snoc (xs : list string) (x : string) :
  dedup (xs ++ [x]) =
  if decide (x ∈ dedup xs) then dedup xs else dedup xs ++ [x].
Proof.
  unfold dedup, dict_fromkeys. rewrite fold_left_app. simpl.
  apply dict_keys_set.
Qed.

Lemma elem_of_dedup (xs : list string) (x : string) : x ∈ dedup xs <-> x ∈ xs.
Proof.
  induction xs as [|y xs IH] using rev_ind.
  - reflexivity.
  - rewrite dedup_snoc, elem_of_app, list_elem_of_singleton.
    destruct (decide (y ∈ dedup xs)) as [Hin|Hnin].
    + rewrite IH. split; [tauto|]. intros [Hx| ->]; [assumption | now apply IH].
    + rewrite elem_of_app, list_elem_of_singleton, IH. reflexivity.
Qed.

Lemma NoDup_dedup (xs : list string) : NoDup (dedup xs).
Proof.
  induction xs as [|y xs IH] using rev_ind.
  - constructor.
  - rewrite dedup_snoc. destruct (decide (y ∈ dedup xs)) as [Hin|Hnin]; [assumption|].
    apply NoDup_app. split; [assumption|]. split; [|apply NoDup_singleton].
    intros z Hz Hz'. apply list_elem_of_singleton in Hz'. now subst.
Qed.

Lemma sublist_dedup (xs : list string) : sublist (dedup xs) xs.
Proof.
  induction xs as [|y xs IH] using rev_ind.
  - constructor.
  - rewrite dedup_snoc. destruct (decide (y ∈ dedup xs)) as [Hin|Hnin].
    + now apply sublist_inserts_r.
    + now apply sublist_app.
Qed.

Lemma index_of_lt (x : string) (xs : list string) (p : nat) :
  index_of x xs = Some p -> (p < length xs)%nat.
Proof.
  revert p. induction xs as [|y xs IH]; intros p; simpl; [discriminate|].
  destruct (decide (y = x)); [intros [= <-]; lia|].
  destruct (index_of x xs) as [q|]; simpl; [|discriminate].
  intros [= <-]. specialize (IH q eq_refl). lia.
Qed.

Lemma index_of_elem (x : string) (xs : list string) :
  x ∈ xs -> exists p, index_of x xs = Some p.
Proof.
  induction xs as [|y xs IH]; [intros []%elem_of_nil|].
  intros Hin. simpl. destruct (decide (y = x)); [eauto|].
  apply elem_of_cons in Hin as [->|Hin]; [congruence|].
  destruct (IH Hin) as [p ->]. simpl. eauto.
Qed.

Lemma index_of_app_l (x : string) (xs ys : list string) (p : nat) :
  index_of x xs = Some p -> index_of x (xs ++ ys) = Some p.
Proof.
  revert p. induction xs as [|y xs IH]; intros p; simpl; [discriminate|].
  destruct (decide (y = x)); [trivial|].
  destruct (index_of x xs) as [q|]; simpl; [|discriminate].
  intros [= <-]. now rewrite (IH q eq_refl).
Qed.

Lemma index_of_fresh (x : string) (xs : list string) :
  x ∉ xs -> index_of x (xs ++ [x]) = Some (length xs).
Proof.
  induction xs as [|y xs IH]; intros Hnin; simpl.
  - now rewrite decide_True.
  - rewrite decide_False by (intros ->; apply Hnin; now left).
    rewrite IH; [reflexivity|]. intros Hin. apply Hnin. now right.
Qed.

Lemma dedup_order (xs : list string) : forall (i j : nat) (x y : string),
  dedup xs !! i = Some x -> dedup xs !! j = Some y -> (i < j)%nat ->
  exists p q, index_of x xs = Some p /\ index_of y xs = Some q /\ (p < q)%nat.
Proof.
  induction xs as [|z xs IH] using rev_ind; intros i j x y Hi Hj Hlt.
  - discriminate.
  - rewrite dedup_snoc in Hi, Hj.
    destruct (decide (z ∈ dedup xs)) as [Hin|Hnin].
    + destruct (IH i j x y Hi Hj Hlt) as (p & q & Hp & Hq & Hpq).
      exists p, q. repeat split; [now apply index_of_app_l..|assumption].
    + assert (Hli : (i < length (dedup xs))%nat).
      { apply lookup_lt_Some in Hj. rewrite length_app in Hj. simpl in Hj. lia. }
      rewrite lookup_app_l in Hi by assumption.
      assert (Hx : x ∈ xs) by (apply elem_of_dedup; eapply list_elem_of_lookup_2; eauto).
      destruct (decide (j < length (dedup xs))%nat) as [Hlj|Hlj].
      * rewrite lookup_app_l in Hj by assumption.
        destruct (IH i j x y Hi Hj Hlt) as (p & q & Hp & Hq & Hpq).
        exists p, q. repeat split; [now apply index_of_app_l..|assumption].
      * rewrite lookup_app_r in Hj by lia.
        apply list_lookup_singleton_Some in Hj as [_ <-].
        destruct (index_of_elem x xs Hx) as [p Hp].
        exists p, (length xs). repeat split.
        -- now apply index_of_app_l.
        -- apply index_of_fresh. now rewrite <- elem_of_dedup.
        -- now apply index_of_lt in Hp.
Qed.

(** C6. For any sequence of strings, deduplication returns the
    sub-sequence of first occurrences: the output has no repeats, has
    exactly the elements of the input, is a sub-sequence of the input, and
    lists the elements in the order of their first appearance. *)
Theorem dedup_first_occurrences (xs : list string) :
  NoDup (dedup xs)
  /\ (forall x, x ∈ dedup xs <-> x ∈ xs)
  /\ sublist (dedup xs) xs
  /\ (forall (i j : nat) (x y : string),
        dedup xs !! i = Some x -> dedup xs !! j = Some y -> (i < j)%nat ->
        exists p q,
          index_of x xs = Some p /\ index_of y xs = Some q /\ (p < q)%nat).
Proof.
  split; [apply NoDup_dedup|]. split; [intros x; apply elem_of_dedup|].
  split; [apply sublist_dedup | apply dedup_order].
Qed.

(** ** Polling engine *)

Section Polling.
Context `{PyStdlib}.
Import Prewarm.

Lemma sleeps_app (t1 t2 : list event) : sleeps (t1 ++ t2) = sleeps t1 ++ sleeps t2.
Proof. apply omap_app. Qed.

Lemma requests_app (t1 t2 : list event) :
  requests (t1 ++ t2) = requests t1 ++ requests t2.
Proof. apply omap_app. Qed.

Lemma probes_app (t1 t2 : list event) : probes (t1 ++ t2) = probes t1 ++ probes t2.
Proof. apply omap_app. Qed.

Lemma poll_loop_step (url label : string) (max_attempts : Z) (delay : float)
    (k : nat) (attempt last_status : Z) (w : world) :
  let o := handle_response (network w (sent w) url) in
  (o.1.1 = 200 /\
   poll_loop url label max_attempts delay (S k) attempt last_status w
   = (o.1.2, mkWorld (network w) (S (sent w)) (trace w ++ [EvOpen None url 30])))
  \/
  (o.1.1 <> 200 /\
   exists line,
     poll_loop url label max_attempts delay (S k) attempt last_status w
     = poll_loop url label max_attempts delay k (attempt + 1) o.1.1
                 (after_attempt w url line (backoff_delay delay o.1.1))).
Proof.
  cbn zeta. cbn [poll_loop]. unfold http_get_json, bind, open_url, ret.
  cbn [fst snd network sent trace].
  destruct (handle_response (network w (sent w) url)) as [[status data] raw].
  cbn [fst snd]. unfold backoff_delay, after_attempt.
  destruct (Z.eqb_spec status 200) as [->|Hne]; [left; split; reflexivity|].
  right. split; [assumption|].
  unfold print, sleep, emit.
  destruct (status =? 202);
    [eexists; cbn [fst snd network sent trace]; rewrite <- !app_assoc; reflexivity|].
  destruct (status =? 429);
    [eexists; cbn [fst snd network sent trace]; rewrite <- !app_assoc; reflexivity|].
  destruct ((status =? 500) || (status =? 503) || (status =? 0));
    eexists; cbn [fst snd network sent trace]; rewrite <- !app_assoc; reflexivity.
Qed.

Lemma attempts_succ (w w' : world) (url : string) (k : nat) :
  network w' = network w -> sent w' = S (sent w) ->
  attempts w url (S k)
  = handle_response (network w (sent w) url) :: attempts w' url k.
Proof.
  intros Hn Hs. unfold attempts. cbn [seq map]. rewrite Nat.add_0_r. f_equal.
  rewrite <- seq_shift, map_map, Hn, Hs. apply map_ext. intros i.
  now rewrite Nat.add_succ_r.
Qed.

Lemma poll_loop_run (url label : string) (max_attempts : Z) (delay : float)
    (remaining : nat) : forall (attempt last_status : Z) (w : world),
  let outs := attempts w url remaining in
  let pre := until_200 outs in
  let res := poll_loop url label max_attempts delay remaining attempt last_status w in
  res.1 = match outs !! length pre with
          | Some o => o.1.2
          | None => PNone
          end
  /\ network res.2 = network w
  /\ sent res.2 = (sent w + length pre
                   + if decide (length pre < remaining)%nat then 1 else 0)%nat
  /\ sleeps (trace res.2)
     = sleeps (trace w) ++ map (fun o => backoff_delay delay o.1.1) pre
  /\ requests (trace res.2)
     = requests (trace w) ++ replicate (sent res.2 - sent w) url.
Proof.
  induction remaining as [|k IH]; intros attempt last_status w; cbn zeta.
  - cbn [poll_loop attempts seq map until_200 length lookup].
    unfold bind, print, emit, ret. cbn [fst snd network sent trace].
    rewrite sleeps_app, requests_app. cbn.
    rewrite !Nat.add_0_r, Nat.sub_diag, !app_nil_r. repeat split; reflexivity.
  - pose proof (poll_loop_step url label max_attempts delay k attempt last_status w)
      as Hstep. cbn zeta in Hstep.
    set (o := handle_response (network w (sent w) url)) in *.
    destruct Hstep as [[H200 ->]|[Hne [line ->]]].
    + rewrite (attempts_succ w (after_attempt w url "" delay)) by reflexivity.
      fold o. cbn [until_200]. rewrite H200. cbn [Z.eqb Pos.eqb length lookup].
      cbn [fst snd network sent trace]. rewrite sleeps_app, requests_app. cbn.
      rewrite app_nil_r. replace (S (sent w) - sent w)%nat with 1%nat by lia.
      repeat split; try reflexivity. case_decide; lia.
    + set (w2 := after_attempt w url line (backoff_delay delay o.1.1)).
      specialize (IH (attempt + 1) o.1.1 w2). cbn zeta in IH.
      destruct IH as (Hres & Hnet & Hsent & Hsl & Hreq).
      rewrite (attempts_succ w w2) by reflexivity. fold o.
      cbn [until_200]. apply Z.eqb_neq in Hne. rewrite Hne.
      cbn [length map lookup].
      change (sent w2) with (S (sent w)) in *.
      change (network w2) with (network w) in *.
      change (trace w2) with
        (trace w ++ [EvOpen None url 30; EvPrint line;
                     EvSleep (backoff_delay delay o.1.1)]) in *.
      rewrite sleeps_app in Hsl. rewrite requests_app in Hreq.
      cbn in Hsl, Hreq. rewrite <- app_assoc in Hsl, Hreq. cbn in Hsl, Hreq.
      set (n := length (until_200 (attempts w2 url k))) in *.
      assert (Hsent' :
        sent (poll_loop url label max_attempts delay k (attempt + 1) o.1.1 w2).2
        = (sent w + S n + if decide (S n < S k)%nat then 1 else 0)%nat).
      { rewrite Hsent. repeat case_decide; lia. }
      repeat split; try assumption.
      rewrite Hreq. f_equal.
      replace (sent (poll_loop url label max_attempts delay k (attempt + 1) o.1.1 w2).2
               - sent w)%nat
        with (S (sent (poll_loop url label max_attempts delay k (attempt + 1) o.1.1 w2).2
                 - S (sent w)))%nat by (rewrite Hsent'; lia).
      reflexivity.
Qed.




End Polling.

(** ** Fetcher *)

Section Fetcher.
Context `{PyStdlib}.
Import Prewarm.


(** Without a response at all the outcome is [(0, None, "")]. *)
Lemma handle_response_transport_failure :
  handle_response RaisedOther = (0, PNone, "").
Proof. reflexivity. Qed.

(** A payload that [urlopen] returned and that does not parse leaves
    through the catch-all clause, with status 0. *)
Lemma handle_response_unparsable (status : Z) (payload : list Byte.byte)
    (text : string) :
  decode_utf8 payload = Some text -> text <> "" -> json_loads text = None ->
  handle_response (Returned status (Some payload)) = (0, PNone, "").
Proof.
  intros Hdec Hne Hload. unfold handle_response. cbn [mbind option_bind].
  rewrite Hdec, Hload. apply String.eqb_neq in Hne. now rewrite Hne.
Qed.
End Fetcher.

(** ** Warming loops *)

Section Warming.
Context `{PyStdlib}.
Import Prewarm.

Lemma wait_for_200_requests (url label : string) (max_attempts : Z)
    (delay : float) (w : world) :
  exists n : nat,
    requests (trace (wait_for_200 url label max_attempts delay w).2)
    = requests (trace w) ++ replicate n url.
Proof.
  unfold wait_for_200.
  destruct (poll_loop_run url label max_attempts delay (Z.to_nat max_attempts) 1 0 w)
    as (_ & _ & _ & _ & Hreq).
  eexists. exact Hreq.
Qed.

Lemma profile_loop_cons (a : args) (total idx : Z) (profile_target : string)
    (rest failed : list string) (w : world) :
  profile_loop a total idx (profile_target :: rest) failed w
  = let label := progress "adventurer" idx total in
    let polled :=
      wait_for_200 (adventurer_url a profile_target) label (max_attempts a)
                   (delay a) (print ("Fetching " +:+ label) w).2 in
    profile_loop a total (idx + 1) rest
                 (note_failure polled.1 profile_target failed)
                 (sleep (throttle a) polled.2).2.
Proof.
  cbn [profile_loop]. unfold bind. cbn zeta.
  destruct (print _ w) as [[] w1]. cbn [snd].
  destruct (wait_for_200 _ _ _ _ w1) as [result w2]. reflexivity.
Qed.

Lemma search_loop_cons (a : args) (total idx : Z) (family_name : string)
    (rest failed : list string) (w : world) :
  search_loop a total idx (family_name :: rest) failed w
  = if is_valid_search_query family_name then
      let label := progress "search" idx total in
      let polled :=
        wait_for_200 (search_url a family_name) label (max_attempts a)
                     (delay a) (print ("Fetching " +:+ label) w).2 in
      search_loop a total (idx + 1) rest
                  (note_failure polled.1 family_name failed)
                  (sleep (throttle a) polled.2).2
    else search_loop a total (idx + 1) rest failed w.
Proof.
  cbn [search_loop]. destruct (is_valid_search_query family_name); [|reflexivity].
  cbn [negb]. unfold bind. cbn zeta.
  destruct (print _ w) as [[] w1]. cbn [snd].
  destruct (wait_for_200 _ _ _ _ w1) as [result w2]. reflexivity.
Qed.

Lemma note_failure_cases (result : pyval) (x : string) (failed : list string) :
  note_failure result x failed = failed
  \/ note_failure result x failed = failed ++ [x].
Proof. destruct result; simpl; auto. Qed.

Lemma profile_loop_failed (a : args) (total : Z) (targets : list string) :
  forall (idx : Z) (failed : list string) (w : world),
  exists extra,
    (profile_loop a total idx targets failed w).1 = failed ++ extra
    /\ sublist extra targets.
Proof.
  induction targets as [|pt rest IH]; intros idx failed w.
  - exists []. split; [now rewrite app_nil_r | constructor].
  - rewrite profile_loop_cons. cbn zeta.
    match goal with
    | |- context [profile_loop a total (idx + 1) rest ?f ?w'] =>
        destruct (IH (idx + 1) f w') as (extra & -> & Hsub)
    end.
    match goal with
    | |- context [note_failure ?r pt failed] =>
        destruct (note_failure_cases r pt failed) as [-> | ->]
    end.
    + exists extra. split; [reflexivity | now apply sublist_cons].
    + exists (pt :: extra). split; [now rewrite <- app_assoc | now apply sublist_skip].
Qed.

Lemma search_loop_failed (a : args) (total : Z) (names : list string) :
  forall (idx : Z) (failed : list string) (w : world),
  exists extra new,
    (search_loop a total idx names failed w).1 = failed ++ extra
    /\ sublist extra (filter (fun x => is_valid_search_query x = true) names)
    /\ requests (trace (search_loop a total idx names failed w).2)
       = requests (trace w) ++ new
    /\ Forall (fun u => exists fn, fn ∈ names
                        /\ is_valid_search_query fn = true
                        /\ u = search_url a fn) new.
Proof.
  induction names as [|fn rest IH]; intros idx failed w.
  - exists [], []. cbn. rewrite !app_nil_r. repeat split; constructor.
  - rewrite search_loop_cons.
    destruct (is_valid_search_query fn) eqn:Hvalid.
    + cbn zeta.
      set (label := progress "search" idx total).
      set (w1 := (print ("Fetching " +:+ label) w).2).
      set (polled := wait_for_200 (search_url a fn) label (max_attempts a)
                                  (delay a) w1).
      destruct (IH (idx + 1) (note_failure polled.1 fn failed)
                   (sleep (throttle a) polled.2).2)
        as (extra & new & -> & Hsub & -> & Hall).
      destruct (wait_for_200_requests (search_url a fn) label (max_attempts a)
                                      (delay a) w1) as [n Hn].
      fold polled in Hn.
      assert (Hreq : requests (trace (sleep (throttle a) polled.2).2)
                     = requests (trace w) ++ replicate n (search_url a fn)).
      { unfold sleep, emit. cbn [snd trace]. rewrite requests_app, Hn.
        unfold w1, print, emit. cbn [snd trace]. rewrite requests_app. cbn.
        now rewrite !app_nil_r. }
      rewrite Hreq.
      assert (Hfilter :
        filter (fun x => is_valid_search_query x = true) (fn :: rest)
        = fn :: filter (fun x => is_valid_search_query x = true) rest)
        by (rewrite filter_cons; now rewrite decide_True).
      rewrite Hfilter.
      assert (Hall' : Forall (fun u => exists fn0, fn0 ∈ fn :: rest
                               /\ is_valid_search_query fn0 = true
                               /\ u = search_url a fn0)
                             (replicate n (search_url a fn) ++ new)).
      { apply Forall_app. split.
        - apply Forall_replicate. exists fn. repeat split; [by left | assumption].
        - eapply Forall_impl; [exact Hall|]. cbn beta.
          intros u (fn0 & Hin & Hv & ->). exists fn0.
          repeat split; [by right | assumption]. }
      destruct (note_failure_cases polled.1 fn failed) as [-> | ->].
      * exists extra, (replicate n (search_url a fn) ++ new).
        repeat split; [now apply sublist_cons | now rewrite app_assoc | assumption].
      * exists (fn :: extra), (replicate n (search_url a fn) ++ new).
        repeat split;
          [now rewrite <- app_assoc | now apply sublist_skip
           | now rewrite app_assoc | assumption].
    + destruct (IH (idx + 1) failed w) as (extra & new & -> & Hsub & -> & Hall).
      exists extra, new. repeat split.
      * rewrite filter_cons, decide_False by congruence. assumption.
      * eapply Forall_impl; [exact Hall|]. cbn beta.
        intros u (fn0 & Hin & Hv & ->). exists fn0.
        repeat split; [by right | assumption].
Qed.

Lemma warm_profiles_failed (a : args) (all_profile_targets : list string)
    (w : world) :
  let unique := dedup all_profile_targets in
  let total := Z.of_nat (length unique) in
  (warm_profiles a all_profile_targets w).1
  = (profile_loop a total 1 unique []
                  (print ("Total unique profiles: " +:+ pretty total) w).2).1.
Proof.
  cbn zeta. unfold warm_profiles, bind.
  destruct (print _ w) as [[] w1]. cbn [snd].
  destruct (profile_loop _ _ _ _ _ w1) as [[|x failed] w2]; reflexivity.
Qed.

Lemma warm_searches_failed (a : args) (all_family_names : list string)
    (w : world) :
  let unique := dedup all_family_names in
  let total := Z.of_nat (length unique) in
  let looped :=
    search_loop a total 1 unique []
                (print ("Total unique family names: " +:+ pretty total) w).2 in
  (warm_searches a all_family_names w).1 = looped.1
  /\ requests (trace (warm_searches a all_family_names w).2)
     = requests (trace looped.2).
Proof.
  cbn zeta. unfold warm_searches, bind.
  destruct (print _ w) as [[] w1]. cbn [snd].
  destruct (search_loop _ _ _ _ _ w1) as [[|x failed] w2]; [split; reflexivity|].
  unfold write_file, print, emit, ret. cbn [fst snd trace].
  split; [reflexivity|]. rewrite !requests_app. cbn. now rewrite !app_nil_r.
Qed.

Lemma count_occ_NoDup (xs : list string) (x : string) :
  NoDup xs -> x ∈ xs -> count_occ string_dec xs x = 1%nat.
Proof.
  intros Hnd Hin. apply NoDup_ListNoDup in Hnd.
  apply (proj1 (NoDup_count_occ' string_dec xs) Hnd).
  now apply list_elem_of_In.
Qed.

(** C8. The identifier set fed to a warming loop has no two equal
    entries; every identifier of a failure list occurs exactly once in
    it; an identifier the query validator rejects is skipped without
    any effect, so that every request of the search warming is for a
    valid identifier of the set, and no rejected identifier is in the
    list of failed searches. *)
Theorem failure_lists_invariant (a : args)
    (all_profile_targets all_family_names : list string) (w : world) :
  let failed_profile_targets := (warm_profiles a all_profile_targets w).1 in
  let searched := warm_searches a all_family_names w in
  NoDup (dedup all_profile_targets)
  /\ NoDup (dedup all_family_names)
  /\ (forall x, x ∈ failed_profile_targets ->
        count_occ string_dec (dedup all_profile_targets) x = 1%nat)
  /\ (forall x, x ∈ searched.1 ->
        count_occ string_dec (dedup all_family_names) x = 1%nat
        /\ is_valid_search_query x = true)
  /\ (exists new,
        requests (trace searched.2) = requests (trace w) ++ new
        /\ Forall (fun u => exists fn, fn ∈ dedup all_family_names
                            /\ is_valid_search_query fn = true
                            /\ u = search_url a fn) new)
  /\ (forall (total idx : Z) (x : string) (rest failed : list string)
             (w0 : world),
        is_valid_search_query x = false ->
        search_loop a total idx (x :: rest) failed w0
        = search_loop a total (idx + 1) rest failed w0).
Proof.
  cbn zeta.
  split; [apply NoDup_dedup|]. split; [apply NoDup_dedup|]. split.
  { intros x Hx. rewrite warm_profiles_failed in Hx. cbn zeta in Hx.
    match type of Hx with
    | x ∈ (profile_loop a ?t 1 ?u [] ?w').1 =>
        destruct (profile_loop_failed a t u 1 [] w') as (extra & Heq & Hsub)
    end.
    rewrite Heq in Hx. cbn [app] in Hx.
    apply count_occ_NoDup; [apply NoDup_dedup|].
    eapply elem_of_sublist; eassumption. }
  destruct (warm_searches_failed a all_family_names w) as [Hres Hreq].
  cbn zeta in Hres, Hreq.
  match type of Hres with
  | _ = (search_loop a ?t 1 ?u [] ?w').1 =>
      destruct (search_loop_failed a t u 1 [] w')
        as (extra & new & Heq & Hsub & Hnew & Hall)
  end.
  split; [|split].
  - intros x Hx. rewrite Hres, Heq in Hx. cbn [app] in Hx.
    pose proof (elem_of_sublist _ _ _ Hx Hsub) as Hin.
    apply list_elem_of_filter in Hin as [Hvalid Hin].
    split; [|assumption]. apply count_occ_NoDup; [apply NoDup_dedup | assumption].
  - exists new. split; [|assumption]. rewrite Hreq, Hnew.
    unfold print, emit. cbn [snd trace]. rewrite requests_app. cbn.
    now rewrite app_nil_r.
  - intros total idx x rest failed w0 Hinvalid.
    rewrite search_loop_cons. now rewrite Hinvalid.
Qed.

(** C10. When the poll for a guild returns a falsy body ([None], an
    empty object, ...), the guild loop moves on at once: the
    accumulated identifiers are unchanged and the world is the one the
    poll left, without the throttle sleep; this is what it does after a
    failed poll. *)
Theorem guild_step_falsy_body (a : args) (guild : string)
    (acc : list pyval * list pyval) (w : world) :
  let polled :=
    wait_for_200
      (build_url (base_url a) "/v1/guild"
                 [("guildName", guild); ("region", region a)])
      ("guild:" +:+ guild) (max_attempts a) (delay a)
      (print ("Fetching guild: " +:+ guild) w).2 in
  py_truthy polled.1 = false ->
  guild_step a guild acc w = (Ok acc, polled.2).
Proof.
  cbn zeta. intros Hfalsy. unfold guild_step, bind.
  destruct (print _ w) as [[] w1]. cbn [snd] in *.
  destruct (wait_for_200 _ _ _ _ w1) as [guild_json w2]. cbn [fst snd] in *.
  now rewrite Hfalsy.
Qed.

(** For contrast: a truthy body whose members can be read is followed
    by the report line and the throttle sleep. *)
Lemma guild_step_truthy_body (a : args) (guild : string)
    (acc : list pyval * list pyval) (w : world)
    (profile_targets family_names : list pyval) :
  let polled :=
    wait_for_200
      (build_url (base_url a) "/v1/guild"
                 [("guildName", guild); ("region", region a)])
      ("guild:" +:+ guild) (max_attempts a) (delay a)
      (print ("Fetching guild: " +:+ guild) w).2 in
  py_truthy polled.1 = true ->
  collect_profile_targets polled.1 = Ok profile_targets ->
  collect_family_names polled.1 = Ok family_names ->
  (guild_step a guild acc w).1
  = Ok (acc.1 ++ profile_targets, acc.2 ++ family_names)
  /\ trace (guild_step a guild acc w).2
     = trace polled.2
       ++ [EvPrint ("  members: " +:+ pretty (Z.of_nat (length profile_targets)));
           EvSleep (throttle a)].
Proof.
  cbn zeta. intros Htruthy Hpt Hfn. unfold guild_step, bind.
  destruct (print _ w) as [[] w1]. cbn [snd] in *.
  destruct (wait_for_200 _ _ _ _ w1) as [guild_json w2]. cbn [fst snd] in *.
  rewrite Htruthy, Hpt, Hfn. cbn [negb].
  unfold print, sleep, emit, ret. cbn [fst snd trace].
  split; [reflexivity | now rewrite <- app_assoc].
Qed.
End Warming.

(** ** Proxy validation *)

Lemma starts_with_spec (prefix s : string) :
  starts_with prefix s = true <-> exists post, s = prefix +:+ post.
Proof.
  revert s. induction prefix as [|a p IH]; intros s.
  - split; [intros _; now exists s | reflexivity].
  - destruct s as [|b s]; cbn [starts_with].
    + split; [discriminate | intros [post Hpost]; discriminate].
    + rewrite andb_true_iff, IH, Ascii.eqb_eq. split.
      * intros [-> [post ->]]. now exists post.
      * intros [post Hpost]. cbn in Hpost. injection Hpost as -> ->.
        split; [reflexivity | now exists post].
Qed.

Lemma str_contains_spec (needle s : string) :
  str_contains needle s = true <-> exists pre post, s = pre +:+ needle +:+ post.
Proof.
  induction s as [|c s IH].
  - cbn [str_contains]. rewrite orb_false_r, starts_with_spec. split.
    + intros [post Hpost]. now exists "", post.
    + intros (pre & post & Heq). destruct pre; [now exists post | discriminate].
  - cbn [str_contains]. rewrite orb_true_iff, starts_with_spec, IH. split.
    + intros [[post Hpost] | (pre & post & ->)].
      * now exists "", post.
      * now exists (String c pre), post.
    + intros (pre & post & Heq). destruct pre as [|c' pre].
      * left. now exists post.
      * right. cbn in Heq. injection Heq as -> ->. now exists pre, post.
Qed.

Section Proxy.
Context `{PyStdlib}.
Import ProxyFilter.

(** C4. The verdict on a candidate is [True] exactly when the probe
    raises nothing, the status is 200, none of the block-page markers
    occurs in the lower-cased text of the first 20000 bytes of the body,
    and that text is longer than 500 characters; whatever the probe
    raises, the verdict is [False], and [test_proxy] returns the verdict
    of the response to its one request. *)
Theorem test_proxy_verdict :
  (forall r : urlopen_result,
     verdict r = true <->
     exists payload,
       r = Returned 200 (Some payload)
       /\ Forall (fun marker =>
                    str_contains marker
                      (str_lower (decode_utf8_ignore (take (Z.to_nat 20000) payload)))
                    = false) blocked_markers
       /\ 500 < py_len (decode_utf8_ignore (take (Z.to_nat 20000) payload)))
  /\ verdict RaisedOther = false
  /\ (forall code read, verdict (RaisedHTTPError code read) = false)
  /\ (forall status, verdict (Returned status None) = false)
  /\ (forall proxy url timeout w,
        test_proxy proxy url timeout w
        = (verdict (network w (sent w) url),
           mkWorld (network w) (S (sent w))
                   (trace w ++ [EvOpen (Some proxy) url timeout]))).
Proof.
  split; [|repeat split; reflexivity].
  intros r. split.
  - destruct r as [status [payload|]|code read|]; cbn [verdict]; try discriminate.
    destruct (Z.eqb_spec status 200) as [->|Hne]; cbn [negb]; [|discriminate].
    set (lowered := str_lower (decode_utf8_ignore (take (Z.to_nat 20000) payload))).
    destruct (str_contains "imperva" lowered) eqn:H1; [discriminate|].
    destruct (str_contains "incapsula" lowered) eqn:H2; [discriminate|].
    destruct (str_contains "<iframe" lowered) eqn:H3; [discriminate|].
    cbn [orb]. intros Hlen%Z.ltb_lt. exists payload.
    split; [reflexivity|]. split; [|assumption].
    unfold blocked_markers. repeat constructor; assumption.
  - intros (payload & -> & Hmarkers & Hlen). cbn [verdict Z.eqb Pos.eqb negb].
    unfold blocked_markers in Hmarkers.
    inversion Hmarkers as [|? ? H1 Hm1]; subst.
    inversion Hm1 as [|? ? H2 Hm2]; subst.
    inversion Hm2 as [|? ? H3 _]; subst.
    rewrite H1, H2, H3. cbn [orb]. now apply Z.ltb_lt.
Qed.

Lemma probe_loop_cons (a : args) (proxy : string) (rest : list string)
    (tested : Z) (working : list string) (w : world) :
  probe_loop a (proxy :: rest) tested working w
  = if limit a <=? tested then (working, w)
    else
      let ok := verdict (network w (sent w) (test_url a)) in
      probe_loop a rest (tested + 1)
                 (if ok then working ++ [proxy] else working)
                 (mkWorld (network w) (S (sent w))
                          (trace w ++ [EvOpen (Some proxy) (test_url a) (timeout a);
                                       EvPrint (proxy +:+ " -> "
                                                +:+ (if ok then "OK" else "FAIL"));
                                       EvSleep (sleep_s a)])).
Proof.
  cbn [probe_loop]. destruct (limit a <=? tested); [reflexivity|].
  unfold test_proxy, bind, open_url, print, sleep, emit, ret.
  cbn [fst snd network sent trace]. now rewrite <- !app_assoc.
Qed.


Lemma fetch_proxy_list_world (url : string) (w : world) :
  (fetch_proxy_list url w).2
  = mkWorld (network w) (S (sent w)) (trace w ++ [EvOpen None url 30]).
Proof.
  unfold fetch_proxy_list, bind, open_url, ret.
  destruct (network w (sent w) url) as [status [payload|]|code read|]; reflexivity.
Qed.

Lemma main_unfold (a : args) (w : world) :
  main a w
  = match (fetch_proxy_list (source_url a) w).1 with
    | Raise e => (Uncaught e, (fetch_proxy_list (source_url a) w).2)
    | Ok [] =>
        (Exit 1, (print "No proxies found." (fetch_proxy_list (source_url a) w).2).2)
    | Ok proxies =>
        let looped :=
          probe_loop a proxies 0 [] (fetch_proxy_list (source_url a) w).2 in
        match looped.1 with
        | [] => (Exit 2, (print "No working proxies found." looped.2).2)
        | working =>
            (Exit 0,
             mkWorld (network looped.2) (sent looped.2)
               (trace looped.2
                ++ [EvWrite (out a)
                      (str_join (String "010"%char "") working
                       +:+ String "010"%char "");
                    EvPrint ("Saved " +:+ pretty (Z.of_nat (length working))
                             +:+ " working proxies to " +:+ out a);
                    EvPrint ("Use them like: -proxy " +:+ String "034"%char ""
                             +:+ str_join " " working +:+ String "034"%char "")]))
        end
    end.
Proof.
  unfold main, bind.
  destruct (fetch_proxy_list (source_url a) w) as [[[|p proxies]|e] w1];
    cbn [fst snd]; try reflexivity.
  destruct (probe_loop a (p :: proxies) 0 [] w1) as [[|x working] w2];
    cbn [fst snd]; [reflexivity|].
  unfold write_file, print, emit, ret. cbn [fst snd network sent trace].
  now rewrite <- !app_assoc.
Qed.


End Proxy.

(** ** Worked examples *)

Section Worked.
Import Examples.
#[local] Existing Instance ascii_stdlib.



(** A page that is not JSON, delivered with status 200, is reported
    with status 0. *)
Example handle_response_html_200 :
  Prewarm.handle_response (Returned 200 (Some (bytes "<html>busy</html>")))
  = (0, PNone, "").
Proof. reflexivity. Qed.


(** Three attempts without connection: three sleeps of
    [max(10.0, 2.0 * 5)] seconds. *)
Example wait_for_200_unreachable :
  (Prewarm.wait_for_200 some_url "adventurer:1/1" 3 2%float unreachable).1 = PNone
  /\ sleeps (trace (Prewarm.wait_for_200 some_url "adventurer:1/1" 3 2%float
                                         unreachable).2)
     = [10%float; 10%float; 10%float].
Proof. split; vm_compute; reflexivity. Qed.


Lemma guild_step_falsy_body_witness :
  exists w1 : world,
    Prewarm.guild_step Prewarm.default_args "Mythic" ([], []) empty_object_200
    = (Ok ([], []), w1)
    /\ sleeps (trace w1) = [].
Proof.
  eexists. split.
  - apply (guild_step_falsy_body Prewarm.default_args "Mythic" ([], [])
                                 empty_object_200).
    vm_compute. reflexivity.
  - vm_compute. reflexivity.
Defined.

(** The scenarios of the proxy validator. *)
Example verdict_scenarios :
  ProxyFilter.verdict (Returned 200 (Some (page "" 501))) = true
  /\ ProxyFilter.verdict (Returned 200 (Some (page "<IFrame src=x>" 487))) = false
  /\ ProxyFilter.verdict (Returned 200 (Some (page "" 400))) = false
  /\ ProxyFilter.verdict (RaisedHTTPError 403 (Some (page "" 501))) = false
  /\ ProxyFilter.verdict RaisedOther = false.
Proof. repeat split; vm_compute; reflexivity. Qed.
End Worked.


(** * Further properties *)

(** ** Fetcher: what an outcome tells about the response *)

Section FetcherMore.
Context `{PyStdlib}.
Import Prewarm.

(** X1. A body is never made up: when the outcome has one, it is the parse
    of the non-empty payload of the response, and the status is the one
    of the response. *)
Theorem handle_response_body_present (r : urlopen_result) (status : Z)
    (data : pyval) (raw : string) :
  handle_response r = (status, data, raw) ->
  data <> PNone ->
  exists payload text,
    decode_utf8 payload = Some text /\ text <> "" /\ json_loads text = Some data
    /\ ((r = Returned status (Some payload) /\ raw = "")
        \/ (r = RaisedHTTPError status (Some payload) /\ raw = text)).
Proof.
  intros Hout Hdata.
  destruct r as [st [payload|]|code [payload|]|]; cbn in Hout;
    try (injection Hout as <- <- <-; congruence).
  - destruct (decode_utf8 payload) as [text|] eqn:Hdec;
      [|injection Hout as <- <- <-; congruence].
    destruct (String.eqb_spec text "") as [->|Hne];
      [injection Hout as <- <- <-; congruence|].
    destruct (json_loads text) as [d|] eqn:Hload;
      injection Hout as <- <- <-; [|congruence].
    exists payload, text. repeat split; auto.
  - destruct (decode_utf8 payload) as [text|] eqn:Hdec;
      [|injection Hout as <- <- <-; congruence].
    destruct (String.eqb_spec text "") as [->|Hne];
      [injection Hout as <- <- <-; congruence|].
    destruct (json_loads text) as [d|] eqn:Hload;
      injection Hout as <- <- <-; [|congruence].
    exists payload, text. repeat split; auto.
Qed.

(** X2. Raw text comes with HTTP errors only, and only when the payload of
    the error parses. *)
Theorem handle_response_raw_present (r : urlopen_result) (status : Z)
    (data : pyval) (raw : string) :
  handle_response r = (status, data, raw) ->
  raw <> "" ->
  exists payload,
    r = RaisedHTTPError status (Some payload)
    /\ decode_utf8 payload = Some raw /\ json_loads raw = Some data.
Proof.
  intros Hout Hraw.
  destruct r as [st [payload|]|code [payload|]|]; cbn in Hout;
    try (injection Hout as <- <- <-; congruence).
  - destruct (decode_utf8 payload) as [text|] eqn:Hdec;
      [|injection Hout as <- <- <-; congruence].
    destruct (String.eqb text ""); [injection Hout as <- <- <-; congruence|].
    destruct (json_loads text); injection Hout as <- <- <-; congruence.
  - destruct (decode_utf8 payload) as [text|] eqn:Hdec;
      [|injection Hout as <- <- <-; congruence].
    destruct (String.eqb_spec text "") as [->|Hne];
      [injection Hout as <- <- <-; congruence|].
    destruct (json_loads text) as [d|] eqn:Hload;
      injection Hout as <- <- <-; [|congruence].
    exists payload. auto.
Qed.

(** X3. A response that [urlopen] delivered but whose payload cannot be
    read, decoded or parsed is reported like a failed connection. *)
Theorem handle_response_delivered_as_failure (status : Z)
    (read : option (list Byte.byte)) :
  match read ≫= decode_utf8 with
  | Some text => text <> "" /\ json_loads text = None
  | None => True
  end ->
  handle_response (Returned status read) = handle_response RaisedOther.
Proof.
  cbn [handle_response]. destruct (read ≫= decode_utf8) as [text|]; [|reflexivity].
  intros [Hne Hload]. apply String.eqb_neq in Hne. now rewrite Hne, Hload.
Qed.
End FetcherMore.

(** ** Polling engine: bounds, edge cases and scenarios *)

Section PollingMore.
Context `{PyStdlib}.
Import Prewarm.

Lemma until_200_length (outs : list fetch_outcome) :
  (length (until_200 outs) <= length outs)%nat.
Proof.
  induction outs as [|o outs IH]; cbn; [lia|].
  destruct (o.1.1 =? 200); cbn; lia.
Qed.


Lemma attempts_length (w : world) (url : string) (n : nat) :
  length (attempts w url n) = n.
Proof. unfold attempts. now rewrite length_map, length_seq. Qed.

(** X4. The attempt ceiling: [wait_for_200] issues at most [max_attempts]
    requests and sleeps at most [max_attempts] times; it leaves the
    network as it found it. *)
Theorem wait_for_200_ceiling (url label : string) (max_attempts : Z)
    (delay : float) (w : world) :
  let res := wait_for_200 url label max_attempts delay w in
  (sent w <= sent res.2 <= sent w + Z.to_nat max_attempts)%nat
  /\ (length (sleeps (trace res.2)) <= length (sleeps (trace w))
                                       + Z.to_nat max_attempts)%nat
  /\ network res.2 = network w.
Proof.
  cbn zeta. unfold wait_for_200.
  destruct (poll_loop_run url label max_attempts delay (Z.to_nat max_attempts) 1 0 w)
    as (_ & Hnet & Hsent & Hsl & _).
  pose proof (until_200_length (attempts w url (Z.to_nat max_attempts))) as Hle.
  rewrite attempts_length in Hle.
  split; [|split; [|assumption]].
  - rewrite Hsent. case_decide; lia.
  - rewrite Hsl, length_app, length_map. lia.
Qed.

(** X5. With [max_attempts] zero or negative nothing is requested: the
    result is [None] and the only effect is the failure line, which then
    carries the connection hint. *)
Theorem wait_for_200_no_attempt (url label : string) (max_attempts : Z)
    (delay : float) (w : world) :
  max_attempts <= 0 ->
  wait_for_200 url label max_attempts delay w
  = (PNone,
     mkWorld (network w) (sent w)
             (trace w ++ [EvPrint ("[" +:+ label +:+ "] failed after "
                                   +:+ pretty max_attempts
                                   +:+ " attempts (connection failed?)")])).
Proof.
  intros Hle. unfold wait_for_200.
  replace (Z.to_nat max_attempts) with 0%nat by lia. reflexivity.
Qed.









End PollingMore.

(** ** URLs *)

Lemma str_app_cons (c : ascii) (s t : string) :
  String c s +:+ t = String c (s +:+ t).
Proof. reflexivity. Qed.

Lemma str_app_nil_r (s : string) : s +:+ "" = s.
Proof.
  induction s as [|c s IH]; [reflexivity | now rewrite str_app_cons, IH].
Qed.

Lemma str_app_assoc (s t u : string) : (s +:+ t) +:+ u = s +:+ t +:+ u.
Proof.
  induction s as [|c s IH]; [reflexivity | now rewrite !str_app_cons, IH].
Qed.

Lemma rstrip_slash_snoc (s : string) : rstrip_slash (s +:+ "/") = rstrip_slash s.
Proof.
  induction s as [|c s IH]; [reflexivity|].
  change (rstrip_slash (String c s +:+ "/"))
    with (match rstrip_slash (s +:+ "/") with
          | EmptyString =>
              if Ascii.eqb c "/"%char then EmptyString else String c EmptyString
          | rest' => String c rest'
          end).
  rewrite IH. reflexivity.
Qed.

Lemma rstrip_slash_slashes (s : string) (k : nat) :
  rstrip_slash (s +:+ slashes k) = rstrip_slash s.
Proof.
  revert s. induction k as [|k IH]; intros s; cbn [slashes].
  - now rewrite str_app_nil_r.
  - change (String "/"%char (slashes k)) with ("/" +:+ slashes k).
    now rewrite <- str_app_assoc, IH, rstrip_slash_snoc.
Qed.

Lemma rstrip_slash_no_trailing (s : string) :
  forall t, rstrip_slash s <> t +:+ "/".
Proof.
  induction s as [|c s IH]; intros t; cbn [rstrip_slash].
  - destruct t; discriminate.
  - destruct (rstrip_slash s) as [|c' r] eqn:Hr.
    + destruct (Ascii.eqb_spec c "/"%char) as [->|Hne].
      * destruct t; discriminate.
      * destruct t as [|c1 t].
        -- change ("" +:+ "/") with "/". intros [= ->]. now apply Hne.
        -- rewrite str_app_cons. intros [= _ Heq]. destruct t; discriminate Heq.
    + destruct t as [|c1 t].
      * change ("" +:+ "/") with "/". discriminate.
      * rewrite str_app_cons. intros [= _ Heq]. exact (IH t Heq).
Qed.

Lemma rstrip_slash_only_slashes (s : string) :
  exists k, s = rstrip_slash s +:+ slashes k.
Proof.
  induction s as [|c s [k IH]]; [now exists 0%nat|].
  cbn [rstrip_slash]. destruct (rstrip_slash s) as [|c' r] eqn:Hr.
  - change ("" +:+ slashes k) with (slashes k) in IH.
    destruct (Ascii.eqb_spec c "/"%char) as [->|Hne].
    + exists (S k).
      change ("" +:+ slashes (S k)) with (String "/"%char (slashes k)).
      now rewrite <- IH.
    + exists k. rewrite str_app_cons.
      change ("" +:+ slashes k) with (slashes k). now rewrite <- IH.
  - exists k. rewrite str_app_cons. now rewrite <- IH.
Qed.

(** X10. Trailing slashes of the base URL make no difference to [build_url]:
    they are removed, whatever their number, and nothing else is; the
    path is appended to a base that does not end in a slash. *)
Theorem build_url_trailing_slashes `{PyStdlib} (base_url path : string)
    (params : list (string * string)) :
  (forall k, Prewarm.build_url (base_url +:+ slashes k) path params
             = Prewarm.build_url base_url path params)
  /\ (exists stem k,
        base_url = stem +:+ slashes k
        /\ (forall t, stem <> t +:+ "/")
        /\ Prewarm.build_url base_url path params
           = stem +:+ path +:+ "?" +:+ urlencode params).
Proof.
  split.
  - intros k. unfold Prewarm.build_url. now rewrite rstrip_slash_slashes.
  - destruct (rstrip_slash_only_slashes base_url) as [k Hk].
    exists (rstrip_slash base_url), k.
    split; [exact Hk|]. split; [apply rstrip_slash_no_trailing | reflexivity].
Qed.

(** ** Entity extraction *)

Section Extraction.
Context `{PyStdlib}.
Import Prewarm.

Lemma collect_members_dicts (field : string) (members : list (list (string * pyval))) :
  forall acc,
    collect_members field (map PDict members) acc
    = Ok (acc ++ List.filter py_truthy (map (dict_get field) members)).
Proof.
  induction members as [|m members IH]; intros acc; cbn [map collect_members List.filter].
  - now rewrite app_nil_r.
  - rewrite IH. destruct (py_truthy (dict_get field m)); [|reflexivity].
    now rewrite <- app_assoc.
Qed.

(** X11. From a guild whose members are all objects, in member order: the
    values of the field that are truthy; a member without the field, or
    with [null], an empty string, zero or [false] in it, is skipped. *)
Theorem collect_field_members (field : string) (entries : list (string * pyval))
    (members : list (list (string * pyval))) :
  dict_get "members" entries = PList (map PDict members) ->
  collect_field field (PDict entries)
  = Ok (List.filter py_truthy (map (dict_get field) members)).
Proof.
  intros Hm. unfold collect_field, py_or. rewrite Hm.
  destruct members as [|m members]; [reflexivity|].
  change (py_truthy (PList (map PDict (m :: members)))) with true. cbv iota.
  apply (collect_members_dicts field (m :: members) []).
Qed.

(** X12. A guild object without [members], or with a falsy value there
    ([null], an empty list, ...), has no identifiers; nothing is raised. *)
Theorem collect_field_no_members (field : string) (entries : list (string * pyval)) :
  py_truthy (dict_get "members" entries) = false ->
  collect_field field (PDict entries) = Ok [].
Proof. intros Hf. unfold collect_field, py_or. now rewrite Hf. Qed.

Lemma collect_members_raise (field : string) (members : list pyval) :
  forall acc,
    match collect_members field members acc with
    | Ok _ => Forall (fun m => is_dict m = true) members
    | Raise e => e = AttributeError /\ Exists (fun m => is_dict m = false) members
    end.
Proof.
  induction members as [|m members IH]; intros acc; cbn [collect_members].
  - constructor.
  - destruct m; try (split; [reflexivity | now left]).
    match goal with
    | |- context [collect_members field members ?acc'] => specialize (IH acc')
    end.
    destruct (collect_members field members _) as [l|e].
    + now constructor.
    + destruct IH as [-> Hex]. split; [reflexivity | now right].
Qed.

(** X13. A member that is not an object ([null], a string, a number, a
    list) is not skipped: the extraction raises [AttributeError] exactly
    when the members list has one. *)
Theorem collect_field_non_object_member (field : string)
    (entries : list (string * pyval)) (members : list pyval) :
  dict_get "members" entries = PList members ->
  (collect_field field (PDict entries) = Raise AttributeError
   <-> Exists (fun m => is_dict m = false) members).
Proof.
  intros Hm. unfold collect_field, py_or. rewrite Hm.
  destruct members as [|m members].
  - cbn. split; [discriminate | intros Hex; inversion Hex].
  - cbn [py_truthy].
    pose proof (collect_members_raise field (m :: members) []) as Hr.
    destruct (collect_members field (m :: members) []) as [l|e].
    + split; [discriminate|]. intros Hex. exfalso.
      apply Exists_exists in Hex as (x & Hin & Hx).
      rewrite Forall_forall in Hr. specialize (Hr x Hin). congruence.
    + destruct Hr as [-> Hex]. split; auto.
Qed.

Lemma collect_field_raise_cases (field : string) (guild_json : pyval) (e : pyexc) :
  collect_field field guild_json = Raise e <->
  match guild_json with
  | PDict entries =>
      match py_or (dict_get "members" entries) (PList []) with
      | PList members =>
          e = AttributeError /\ Exists (fun m => is_dict m = false) members
      | PDict (_ :: _) => e = AttributeError
      | PDict [] => False
      | PStr s => s <> "" /\ e = AttributeError
      | PNone | PBool _ | PInt _ | PFloat _ => e = TypeError
      end
  | _ => e = AttributeError
  end.
Proof.
  unfold collect_field.
  destruct guild_json; try (split; [intros [= <-]; reflexivity | intros ->; reflexivity]).
  destruct (py_or (dict_get "members" entries) (PList [])) as [| | | |s|members|[|kv d]];
    try (split; [intros [= <-]; reflexivity | intros ->; reflexivity]).
  - destruct (String.eqb_spec s "") as [->|Hne].
    + split; [discriminate | intros [Hne _]; congruence].
    + split; [intros [= <-]; auto | intros [_ ->]; reflexivity].
  - pose proof (collect_members_raise field members []) as Hr.
    destruct (collect_members field members []) as [l|e'].
    + split; [discriminate|]. intros [_ Hex]. exfalso.
      apply Exists_exists in Hex as (x & Hin & Hx).
      rewrite Forall_forall in Hr. specialize (Hr x Hin). congruence.
    + destruct Hr as [-> Hex]. split; [intros [= <-]; auto | intros [-> _]; reflexivity].
  - split; [discriminate | intros []].
Qed.

(** X14. The two collectors fail together, with the same exception: if the
    profile targets of a body can be collected, so can its family
    names. *)
Theorem collectors_fail_together (guild_json : pyval) (e : pyexc) :
  collect_profile_targets guild_json = Raise e
  <-> collect_family_names guild_json = Raise e.
Proof.
  unfold collect_profile_targets, collect_family_names.
  now rewrite !collect_field_raise_cases.
Qed.
End Extraction.

(** ** Deduplication, continued *)

Lemma dedup_NoDup_id (xs : list string) : NoDup xs -> dedup xs = xs.
Proof.
  induction xs as [|x xs IH] using rev_ind; intros Hnd; [reflexivity|].
  apply NoDup_app in Hnd as (Hxs & Hdisj & _).
  rewrite dedup_snoc, (IH Hxs).
  rewrite decide_False; [reflexivity|].
  intros Hin. apply (Hdisj x Hin). now left.
Qed.

(** X15. Deduplication leaves a list without repeats as it is, so it is
    idempotent; it never makes a list longer. *)
Theorem dedup_idempotent (xs : list string) :
  (NoDup xs -> dedup xs = xs)
  /\ dedup (dedup xs) = dedup xs
  /\ (length (dedup xs) <= length xs)%nat.
Proof.
  split; [apply dedup_NoDup_id|]. split.
  - apply dedup_NoDup_id, NoDup_dedup.
  - apply sublist_length, sublist_dedup.
Qed.

(** X16. Identifiers collected from later guilds go after those of earlier
    guilds: deduplicating a concatenation keeps the deduplicated first
    part and appends what is new in the second. *)
Theorem dedup_app (xs ys : list string) :
  dedup (xs ++ ys) = dedup xs ++ filter (fun y => y ∉ xs) (dedup ys).
Proof.
  induction ys as [|y ys IH] using rev_ind.
  - now rewrite !app_nil_r.
  - rewrite app_assoc, !dedup_snoc, IH.
    destruct (decide (y ∈ dedup ys)) as [Hys|Hys].
    + rewrite decide_True; [reflexivity|].
      apply elem_of_app. destruct (decide (y ∈ xs)) as [Hxs|Hxs].
      * left. now apply elem_of_dedup.
      * right. apply list_elem_of_filter. now split.
    + rewrite filter_app, filter_cons, filter_nil.
      destruct (decide (y ∉ xs)) as [Hxs|Hxs].
      * rewrite decide_False; [now rewrite app_assoc|].
        intros [Hin|Hin]%elem_of_app.
        -- apply (proj1 (elem_of_dedup xs y)) in Hin. contradiction.
        -- apply list_elem_of_filter in Hin as [_ Hin]. contradiction.
      * rewrite app_nil_r. rewrite decide_True; [reflexivity|].
        apply elem_of_app. left. apply elem_of_dedup.
        destruct (decide (y ∈ xs)); [assumption | contradiction].
Qed.

(** ** Warming loops: effects *)

Section WarmingMore.
Context `{PyStdlib}.
Import Prewarm.

Lemma writes_app (t1 t2 : list event) : writes (t1 ++ t2) = writes t1 ++ writes t2.
Proof. apply omap_app. Qed.

Lemma prints_app (t1 t2 : list event) : prints (t1 ++ t2) = prints t1 ++ prints t2.
Proof. apply omap_app. Qed.

Lemma poll_loop_extends (url label : string) (max_attempts : Z) (delay : float)
    (k : nat) : forall (attempt last_status : Z) (w : world),
  exists t,
    trace (poll_loop url label max_attempts delay k attempt last_status w).2
    = trace w ++ t
    /\ writes t = [] /\ probes t = [].
Proof.
  induction k as [|k IH]; intros attempt last_status w.
  - eexists. split; [reflexivity | split; reflexivity].
  - destruct (poll_loop_step url label max_attempts delay k attempt last_status w)
      as [[_ ->]|[_ [line ->]]].
    + eexists. split; [reflexivity | split; reflexivity].
    + match goal with
      | |- context [poll_loop url label max_attempts delay k ?a ?l ?w'] =>
          destruct (IH a l w') as (t & -> & Hw & Hp)
      end.
      unfold after_attempt. cbn [trace]. rewrite <- app_assoc.
      eexists. split; [reflexivity|].
      rewrite writes_app, probes_app, Hw, Hp. split; reflexivity.
Qed.

Lemma never_200_attempts (w : world) (url : string) (k : nat) :
  never_200 w ->
  Forall (fun o : fetch_outcome => o.1.1 <> 200) (attempts w url k).
Proof.
  intros Hnever. unfold attempts. apply Forall_map, Forall_forall.
  intros i _. apply Hnever.
Qed.

Lemma wait_for_200_effects (url label : string) (max_attempts : Z)
    (delay : float) (w : world) :
  let res := wait_for_200 url label max_attempts delay w in
  exists n t,
    (n <= Z.to_nat max_attempts)%nat
    /\ network res.2 = network w
    /\ sent res.2 = (sent w + n)%nat
    /\ trace res.2 = trace w ++ t
    /\ requests t = replicate n url
    /\ writes t = []
    /\ (never_200 w -> res.1 = PNone /\ n = Z.to_nat max_attempts).
Proof.
  cbn zeta. unfold wait_for_200.
  destruct (poll_loop_run url label max_attempts delay (Z.to_nat max_attempts) 1 0 w)
    as (Hres & Hnet & Hsent & _ & Hreq).
  destruct (poll_loop_extends url label max_attempts delay (Z.to_nat max_attempts) 1 0 w)
    as (t & Ht & Hw & _).
  set (res := poll_loop url label max_attempts delay (Z.to_nat max_attempts) 1 0 w) in *.
  set (outs := attempts w url (Z.to_nat max_attempts)) in *.
  assert (Hlen : length outs = Z.to_nat max_attempts)
    by (unfold outs, attempts; now rewrite length_map, length_seq).
  assert (Hle : (length (until_200 outs) <= length outs)%nat).
  { clear. induction outs as [|o outs IH]; cbn; [lia|].
    destruct (o.1.1 =? 200); cbn; lia. }
  exists (sent res.2 - sent w)%nat, t.
  split; [rewrite Hsent; case_decide; lia|].
  split; [assumption|]. split; [rewrite Hsent; lia|]. split; [assumption|].
  split.
  { rewrite Ht, requests_app in Hreq. now apply app_inv_head in Hreq. }
  split; [assumption|].
  intros Hnever. pose proof (never_200_attempts w url (Z.to_nat max_attempts) Hnever)
    as Hall. fold outs in Hall.
  assert (Hpre : until_200 outs = outs).
  { clear - Hall. induction Hall as [|o outs Hne _ IH]; [reflexivity|].
    cbn [until_200]. apply Z.eqb_neq in Hne. now rewrite Hne, IH. }
  rewrite Hpre in Hres, Hsent. split.
  - rewrite Hres, lookup_ge_None_2; [reflexivity | lia].
  - rewrite Hsent, Hlen. rewrite decide_False by lia. lia.
Qed.

Lemma never_200_network (w w' : world) :
  network w' = network w -> never_200 w -> never_200 w'.
Proof. intros Hnet Hnever n url. rewrite Hnet. apply Hnever. Qed.





Lemma search_loop_effects (a : args) (total : Z) (names : list string) :
  forall (idx : Z) (failed : list string) (w : world),
    let valid := filter (fun x => is_valid_search_query x = true) names in
    let res := search_loop a total idx names failed w in
    exists counts t,
      length counts = length valid
      /\ Forall (fun c => c <= Z.to_nat (max_attempts a))%nat counts
      /\ network res.2 = network w
      /\ sent res.2 = (sent w + sum_list counts)%nat
      /\ trace res.2 = trace w ++ t
      /\ requests t = concat (zip_with replicate counts (map (search_url a) valid))
      /\ writes t = []
      /\ (never_200 w ->
          res.1 = failed ++ valid
          /\ Forall (fun c => c = Z.to_nat (max_attempts a)) counts).
Proof.
  induction names as [|fn rest IH]; intros idx failed w; cbn zeta.
  - exists [], []. cbn. rewrite !app_nil_r, Nat.add_0_r.
    repeat split; constructor.
  - rewrite search_loop_cons, filter_cons.
    destruct (is_valid_search_query fn) eqn:Hvalid.
    + rewrite decide_True by reflexivity. cbn zeta.
      set (label := progress "search" idx total).
      set (w1 := (print ("Fetching " +:+ label) w).2).
      destruct (wait_for_200_effects (search_url a fn) label (max_attempts a)
                                     (delay a) w1)
        as (n & t1 & Hn & Hnet1 & Hsent1 & Htr1 & Hreq1 & Hwr1 & Hnever1).
      set (polled := wait_for_200 (search_url a fn) label (max_attempts a)
                                  (delay a) w1) in *.
      set (w3 := (sleep (throttle a) polled.2).2).
      destruct (IH (idx + 1) (note_failure polled.1 fn failed) w3)
        as (counts & t & Hlen & Hle & Hnet & Hsent & Htr & Hreq & Hwr & Hnever).
      exists (n :: counts),
             ([EvPrint ("Fetching " +:+ label)] ++ t1 ++ [EvSleep (throttle a)] ++ t).
      split; [cbn; now rewrite Hlen|]. split; [now constructor|].
      split; [rewrite Hnet; exact Hnet1|].
      split; [rewrite Hsent; cbn; change (sent w3) with (sent polled.2);
              rewrite Hsent1; change (sent w1) with (sent w); lia|].
      split.
      { rewrite Htr. change (trace w3) with (trace polled.2 ++ [EvSleep (throttle a)]).
        rewrite Htr1.
        change (trace w1) with (trace w ++ [EvPrint ("Fetching " +:+ label)]).
        now rewrite <- !app_assoc. }
      split.
      { rewrite !requests_app, Hreq1, Hreq. reflexivity. }
      split.
      { rewrite !writes_app, Hwr1, Hwr. reflexivity. }
      intros Hnever0.
      assert (Hn1 : never_200 w1) by (revert Hnever0; now apply never_200_network).
      destruct (Hnever1 Hn1) as [Hres1 ->].
      assert (Hn3 : never_200 w3).
      { revert Hnever0. apply never_200_network.
        change (network w3) with (network polled.2). exact Hnet1. }
      destruct (Hnever Hn3) as [-> Hall]. rewrite Hres1. cbn [note_failure].
      split; [now rewrite <- app_assoc | now constructor].
    + rewrite decide_False by discriminate. apply IH.
Qed.



(** X20. The progress label of a search counts the skipped identifiers too:
    after [skipped] invalid identifiers the next valid one is announced
    with its position in the deduplicated list. *)
Theorem search_label_counts_skipped (a : args) (total : Z)
    (skipped : list string) (family_name : string) (rest : list string) :
  forall (idx : Z) (failed : list string) (w : world),
    Forall (fun x => is_valid_search_query x = false) skipped ->
    is_valid_search_query family_name = true ->
    exists t,
      trace (search_loop a total idx (skipped ++ family_name :: rest) failed w).2
      = trace w
        ++ EvPrint ("Fetching search:"
                    +:+ pretty (idx + Z.of_nat (length skipped))
                    +:+ "/" +:+ pretty total) :: t.
Proof.
  induction skipped as [|x skipped IH]; intros idx failed w Hskipped Hvalid.
  - cbn [app length]. rewrite search_loop_cons, Hvalid. cbn zeta.
    match goal with
    | |- context [search_loop a total (idx + 1) rest ?f ?w3] =>
        destruct (search_loop_effects a total rest (idx + 1) f w3)
          as (counts & t & _ & _ & _ & _ & Htr & _)
    end.
    cbn zeta in Htr. rewrite Htr. clear Htr.
    match goal with
    | |- context [wait_for_200 ?u ?l ?m ?d ?w1] =>
        destruct (wait_for_200_effects u l m d w1)
          as (n & t1 & _ & _ & _ & Htr1 & _)
    end.
    cbn zeta in Htr1. unfold sleep at 1, emit. cbn [snd trace]. rewrite Htr1.
    unfold print, emit. cbn [snd trace]. rewrite Z.add_0_r.
    rewrite <- !app_assoc. eexists. reflexivity.
  - apply Forall_cons in Hskipped as [Hx Hskipped].
    cbn [app]. rewrite search_loop_cons, Hx.
    destruct (IH (idx + 1) failed w Hskipped Hvalid) as [t ->].
    exists t.
    replace (idx + Z.of_nat (length (x :: skipped)))
      with (idx + 1 + Z.of_nat (length skipped)) by (cbn [length]; lia).
    reflexivity.
Qed.

Lemma guild_step_unfold (a : args) (guild : string)
    (acc : list pyval * list pyval) (w : world) :
  guild_step a guild acc w
  = let polled :=
      wait_for_200
        (build_url (base_url a) "/v1/guild"
                   [("guildName", guild); ("region", region a)])
        ("guild:" +:+ guild) (max_attempts a) (delay a)
        (print ("Fetching guild: " +:+ guild) w).2 in
    if negb (py_truthy polled.1) then (Ok acc, polled.2)
    else match collect_profile_targets polled.1 with
         | Raise e => (Raise e, polled.2)
         | Ok profile_targets =>
             match collect_family_names polled.1 with
             | Raise e => (Raise e, polled.2)
             | Ok family_names =>
                 (Ok (acc.1 ++ profile_targets, acc.2 ++ family_names),
                  mkWorld (network polled.2) (sent polled.2)
                          (trace polled.2
                           ++ [EvPrint ("  members: "
                                        +:+ pretty (Z.of_nat (length profile_targets)));
                               EvSleep (throttle a)]))
             end
         end.
Proof.
  cbn zeta. unfold guild_step, bind.
  destruct (print _ w) as [[] w1]. cbn [snd].
  destruct (wait_for_200 _ _ _ _ w1) as [guild_json w2]. cbn [fst snd].
  destruct (py_truthy guild_json); cbn [negb]; [|reflexivity].
  destruct (collect_profile_targets guild_json); [|reflexivity].
  destruct (collect_family_names guild_json); [|reflexivity].
  unfold print, sleep, emit, ret. cbn [fst snd network sent trace].
  now rewrite <- app_assoc.
Qed.

(** X21. A guild body that cannot be read ends the run at once with the
    exception: the guilds after it are not requested, and nothing more
    is printed or slept. *)
Theorem guild_loop_crash (a : args) (guild : string) (rest : list string)
    (acc : list pyval * list pyval) (w : world) (e : pyexc) :
  let polled :=
    wait_for_200
      (build_url (base_url a) "/v1/guild"
                 [("guildName", guild); ("region", region a)])
      ("guild:" +:+ guild) (max_attempts a) (delay a)
      (print ("Fetching guild: " +:+ guild) w).2 in
  py_truthy polled.1 = true ->
  collect_profile_targets polled.1 = Raise e ->
  guild_loop a (guild :: rest) acc w = (Raise e, polled.2).
Proof.
  cbn zeta. intros Htruthy Hraise. cbn [guild_loop]. unfold bind.
  rewrite guild_step_unfold. cbn zeta. now rewrite Htruthy, Hraise.
Qed.


End WarmingMore.

(** ** Proxy pipeline: effects and edge cases *)

Section ProxyMore.
Context `{PyStdlib}.
Import ProxyFilter.




(** X24. When the candidate list cannot be fetched (no response, an HTTP
    error status, or a body that cannot be read), nothing is caught: the
    run ends with the exception after that one request, without a probe
    and without an exit status of its own. *)
Theorem main_source_failure (a : args) (w : world) :
  (forall status payload,
     network w (sent w) (source_url a) <> Returned status (Some payload)) ->
  main a w
  = (Uncaught NetworkError,
     mkWorld (network w) (S (sent w)) (trace w ++ [EvOpen None (source_url a) 30])).
Proof.
  intros Hfail. unfold main, fetch_proxy_list, bind, open_url, ret.
  destruct (network w (sent w) (source_url a)) as [status [payload|]|code read|].
  - exfalso. exact (Hfail status payload eq_refl).
  - reflexivity.
  - reflexivity.
  - reflexivity.
Qed.

(** X25. With a limit of zero or less and candidates at hand, no candidate is
    probed and the run ends with exit status 2. *)
Theorem main_nothing_to_probe (a : args) (w : world) (proxy : string)
    (rest : list string) :
  (fetch_proxy_list (source_url a) w).1 = Ok (proxy :: rest) ->
  limit a <= 0 ->
  main a w
  = (Exit 2,
     mkWorld (network w) (S (sent w))
             (trace w ++ [EvOpen None (source_url a) 30;
                          EvPrint "No working proxies found."])).
Proof.
  intros Hfetch Hlimit. rewrite main_unfold, Hfetch, fetch_proxy_list_world.
  cbn zeta. rewrite probe_loop_cons.
  destruct (Z.leb_spec (limit a) 0) as [_|Hlt]; [|lia].
  cbn [fst snd]. unfold print, emit. cbn [snd network sent trace].
  now rewrite <- app_assoc.
Qed.


(** X27. The candidate list never holds an empty string, and fetching it
    raises nothing but what the request raises. *)
Theorem fetch_proxy_list_lines (url : string) (w : world) :
  match (fetch_proxy_list url w).1 with
  | Ok lines => Forall (fun line => line <> "") lines
  | Raise e => e = NetworkError
  end.
Proof.
  unfold fetch_proxy_list, bind, open_url, ret.
  destruct (network w (sent w) url) as [status [payload|]|code read|];
    cbn [fst]; try reflexivity.
  apply Forall_map, Forall_forall. intros line Hin. cbn beta.
  apply list_elem_of_filter in Hin as [Hne _]. exact Hne.
Qed.

(** X28. A block-page marker anywhere in the lower-cased text is enough to
    reject the candidate, whatever the status and the length of the
    page. *)
Theorem verdict_marker_anywhere (status : Z) (payload : list Byte.byte)
    (marker pre post : string) :
  marker ∈ blocked_markers ->
  str_lower (decode_utf8_ignore (take (Z.to_nat 20000) payload))
  = pre +:+ marker +:+ post ->
  verdict (Returned status (Some payload)) = false.
Proof.
  intros Hin Hlow. cbn [verdict]. destruct (negb (status =? 200)); [reflexivity|].
  assert (Hc : str_contains marker
                 (str_lower (decode_utf8_ignore (take (Z.to_nat 20000) payload)))
               = true) by (apply str_contains_spec; eauto).
  unfold blocked_markers in Hin.
  apply elem_of_cons in Hin as [->|Hin]; [now rewrite Hc|].
  apply elem_of_cons in Hin as [->|Hin]; [rewrite Hc; now rewrite orb_true_r|].
  apply list_elem_of_singleton in Hin as ->. rewrite Hc. now rewrite !orb_true_r.
Qed.
End ProxyMore.

(** ** Further worked examples *)

Section WorkedMore.
Import Examples.
#[local] Existing Instance ascii_stdlib.

Lemma handle_response_body_present_witness :
  exists payload text,
    decode_utf8 payload = Some text /\ text <> "" /\ json_loads text = Some (PDict [])
    /\ ((Returned 200 (Some (bytes "{}")) = Returned 200 (Some payload) /\ "" = "")
        \/ (Returned 200 (Some (bytes "{}")) = RaisedHTTPError 200 (Some payload)
            /\ "" = text)).
Proof.
  apply (handle_response_body_present (Returned 200 (Some (bytes "{}"))) 200
                                      (PDict []) "").
  - reflexivity.
  - discriminate.
Defined.

Lemma handle_response_raw_present_witness :
  exists payload,
    RaisedHTTPError 404 (Some (bytes "{}")) = RaisedHTTPError 404 (Some payload)
    /\ decode_utf8 payload = Some "{}" /\ json_loads "{}" = Some (PDict []).
Proof.
  apply (handle_response_raw_present (RaisedHTTPError 404 (Some (bytes "{}"))) 404
                                     (PDict []) "{}").
  - reflexivity.
  - discriminate.
Defined.

Lemma handle_response_delivered_as_failure_witness :
  Prewarm.handle_response (Returned 200 (Some (bytes "<html>busy</html>")))
  = Prewarm.handle_response RaisedOther.
Proof.
  apply (handle_response_delivered_as_failure 200 (Some (bytes "<html>busy</html>"))).
  vm_compute. split; [discriminate | reflexivity].
Defined.

Lemma wait_for_200_no_attempt_witness :
  Prewarm.wait_for_200 some_url "adventurer:1/1" 0 2%float unreachable
  = (PNone,
     mkWorld (network unreachable) (sent unreachable)
             (trace unreachable
              ++ [EvPrint ("[" +:+ "adventurer:1/1" +:+ "] failed after "
                           +:+ pretty 0
                           +:+ " attempts (connection failed?)")])).
Proof.
  apply (wait_for_200_no_attempt some_url "adventurer:1/1" 0 2%float unreachable).
  lia.
Defined.




Lemma collect_field_members_witness :
  Prewarm.collect_field "profileTarget" (PDict two_members) = Ok [PStr "abc"]
  /\ Prewarm.collect_field "familyName" (PDict two_members) = Ok [PStr "Fam"].
Proof.
  split.
  - apply (collect_field_members "profileTarget" two_members
             [[("profileTarget", PStr "abc")]; [("familyName", PStr "Fam")]]).
    reflexivity.
  - apply (collect_field_members "familyName" two_members
             [[("profileTarget", PStr "abc")]; [("familyName", PStr "Fam")]]).
    reflexivity.
Defined.

Lemma collect_field_no_members_witness :
  Prewarm.collect_field "profileTarget" (PDict [("name", PStr "Mythic")]) = Ok [].
Proof.
  apply (collect_field_no_members "profileTarget" [("name", PStr "Mythic")]).
  reflexivity.
Defined.

Lemma collect_field_non_object_member_witness :
  Prewarm.collect_field "profileTarget"
    (PDict [("members", PList [PDict [("profileTarget", PStr "abc")]; PNone])])
  = Raise AttributeError.
Proof.
  apply (proj2 (collect_field_non_object_member "profileTarget"
                  [("members", PList [PDict [("profileTarget", PStr "abc")]; PNone])]
                  [PDict [("profileTarget", PStr "abc")]; PNone] eq_refl)).
  right. left. reflexivity.
Defined.


Lemma search_label_counts_skipped_witness :
  exists t,
    trace (Prewarm.search_loop Prewarm.default_args 2 1 ["john doe"; "John_123"] []
                               unreachable).2
    = trace unreachable ++ EvPrint "Fetching search:2/2" :: t.
Proof.
  apply (search_label_counts_skipped Prewarm.default_args 2 ["john doe"] "John_123"
                                     [] 1 [] unreachable).
  - repeat constructor.
  - reflexivity.
Defined.

Lemma guild_loop_crash_witness :
  (Prewarm.guild_loop Prewarm.default_args ["Mythic"; "RAW"] ([], []) list_200).1
  = Raise AttributeError
  /\ sent (Prewarm.guild_loop Prewarm.default_args ["Mythic"; "RAW"] ([], [])
                              list_200).2 = 1%nat.
Proof.
  rewrite (guild_loop_crash Prewarm.default_args "Mythic" ["RAW"] ([], []) list_200
                            AttributeError).
  - split; vm_compute; reflexivity.
  - vm_compute. reflexivity.
  - vm_compute. reflexivity.
Defined.


Lemma main_source_failure_witness :
  (ProxyFilter.main ProxyFilter.default_args unreachable).1
  = ProxyFilter.Uncaught NetworkError.
Proof.
  rewrite (main_source_failure ProxyFilter.default_args unreachable).
  - reflexivity.
  - intros status payload. vm_compute. discriminate.
Defined.

Lemma main_nothing_to_probe_witness :
  (ProxyFilter.main negative_limit two_dead_proxies).1 = ProxyFilter.Exit 2
  /\ sent (ProxyFilter.main negative_limit two_dead_proxies).2 = 1%nat.
Proof.
  rewrite (main_nothing_to_probe negative_limit two_dead_proxies
                                 "10.0.0.1:8080" ["10.0.0.2:8080"]).
  - split; reflexivity.
  - vm_compute. reflexivity.
  - vm_compute. discriminate.
Defined.

Lemma verdict_marker_anywhere_witness :
  ProxyFilter.verdict (Returned 200 (Some (page "<IFrame src=x>" 487))) = false.
Proof.
  apply (verdict_marker_anywhere 200 (page "<IFrame src=x>" 487) "<iframe" ""
           (string_of_list_byte (page " src=x>" 487))).
  - unfold ProxyFilter.blocked_markers. repeat constructor.
  - vm_compute. reflexivity.
Defined.
End WorkedMore.
